(** * PhaseDetector: the per-stream phase detector of the Open Ephys GUI

    A shallow embedding of [Plugins/PhaseDetector/PhaseDetector.cpp]:
    the per-stream settings object, the two event factories
    ([createEvent], [clearOutputLine]), the parameter dispatch
    ([parameterValueChanged]), the gate handler ([handleTTLEvent]) and the
    block loop ([process]), followed by the properties of the detector.

    Conventions.
    - [float] samples are IEEE-754 values ([spec_float]); the comparisons
      are the IEEE ones (every comparison with a NaN is false, the two
      zeros compare equal).
    - [int], [int64] values are [Z].  The only counter that is incremented,
      [samplesSinceTrigger], is incremented only while it is at most 2000,
      so no wrap-around is reachable from it; the [uint64] TTL word is a
      [Z] whose shifts are truncated to 64 bits.
    - The code is written in a small state-and-output monad [Proc]: the
      state is the stream's [PhaseDetectorSettings], the output is the
      sequence of [addEvent] calls. *)

From Stdlib Require Import ZArith List Bool Lia Sorted.
From Stdlib Require Import Floats.SpecFloat.
Import ListNotations.
Local Open Scope Z_scope.

(* ================================================================== *)
(** ** Samples *)

Definition float := spec_float.

(** The [float] value of the integer literal [0]. *)
Definition fzero : float := S754_zero false.

Definition flt (a b : float) : bool := SFltb a b.   (* a <  b *)
Definition fgt (a b : float) : bool := SFltb b a.   (* a >  b *)
Definition fle (a b : float) : bool := SFleb a b.   (* a <= b *)
Definition fge (a b : float) : bool := SFleb b a.   (* a >= b *)

(* ================================================================== *)
(** ** Enumerations of PhaseDetector.h *)

(** Modelled from the spec: the declarations of PhaseDetector.h (the two
    enumerations and the types of the members of [PhaseDetectorSettings])
    are not among the sources.  The enumerators are those PhaseDetector.cpp
    names; the member types are those of the constructor's initialisers
    and of the data model of the specification. *)

(** The target landmark, in the order of the categorical parameter
    [phase]. *)
Inductive DetectorType := PEAK | FALLING_ZERO | TROUGH | RISING_ZERO.

Inductive PhaseType := NO_PHASE | RISING_POS | FALLING_POS | RISING_NEG | FALLING_NEG.

Definition DetectorType_eqb (a b : DetectorType) : bool :=
  match a, b with
  | PEAK, PEAK | FALLING_ZERO, FALLING_ZERO
  | TROUGH, TROUGH | RISING_ZERO, RISING_ZERO => true
  | _, _ => false
  end.

Definition PhaseType_eqb (a b : PhaseType) : bool :=
  match a, b with
  | NO_PHASE, NO_PHASE | RISING_POS, RISING_POS | FALLING_POS, FALLING_POS
  | RISING_NEG, RISING_NEG | FALLING_NEG, FALLING_NEG => true
  | _, _ => false
  end.

(** The phase each landmark branch of [process] stores. *)
Definition phase_of (d : DetectorType) : PhaseType :=
  match d with
  | PEAK => FALLING_POS
  | FALLING_ZERO => FALLING_NEG
  | TROUGH => RISING_NEG
  | RISING_ZERO => RISING_POS
  end.

(* ================================================================== *)
(** ** TTL events *)

(** Which member function built an event.  Both build it with
    [TTLEvent::createTTLEvent]; the tag only records the call site. *)
Inductive Maker := ByCreateEvent | ByClearOutputLine.

Record TTLEvent := mkTTLEvent {
  getSampleNumber : Z;
  getLine : Z;
  getState : bool;
  madeBy : Maker
}.

(** One [addEvent (ptr, i)] call. *)
Record Emitted := mkEmitted {
  event : TTLEvent;
  offset : Z
}.

Inductive EventKind := TRIGGER_ON | TRIGGER_OFF | LINE_CLEAR.

Definition kind_of (e : TTLEvent) : EventKind :=
  match madeBy e with
  | ByClearOutputLine => LINE_CLEAR
  | ByCreateEvent => if getState e then TRIGGER_ON else TRIGGER_OFF
  end.

Definition kind (x : Emitted) : EventKind := kind_of (event x).

Definition EventKind_eqb (a b : EventKind) : bool :=
  match a, b with
  | TRIGGER_ON, TRIGGER_ON | TRIGGER_OFF, TRIGGER_OFF | LINE_CLEAR, LINE_CLEAR => true
  | _, _ => false
  end.

Definition is_kind (k : EventKind) (x : Emitted) : bool := EventKind_eqb (kind x) k.

(** The three events the detector makes, as the output buffer holds them. *)
Definition trigger_on (first i line : Z) : Emitted :=
  mkEmitted (mkTTLEvent (first + i) line true ByCreateEvent) i.
Definition trigger_off (first i line : Z) : Emitted :=
  mkEmitted (mkTTLEvent (first + i) line false ByCreateEvent) i.
Definition line_clear (first i line : Z) : Emitted :=
  mkEmitted (mkTTLEvent (first + i) line false ByClearOutputLine) i.

(** An inbound TTL event of the stream, as [handleTTLEvent] reads it:
    [getLine], [getState] and [getWord] of the event. *)
Record TTLIn := mkTTLIn {
  inLine : Z;
  inState : bool;
  inWord : Z
}.

(* ================================================================== *)
(** ** PhaseDetectorSettings *)

Record PhaseDetectorSettings := mkSettings {
  samplesSinceTrigger : Z;
  lastSample : float;
  isActive : bool;
  wasTriggered : bool;
  detectorType : DetectorType;
  currentPhase : PhaseType;
  triggerChannel : Z;
  outputLine : Z;
  gateLine : Z;
  lastOutputLine : Z;
  outputLineChanged : bool;
  lastTTLWord : Z
}.

(** The constructor's initial values. *)
Definition PhaseDetectorSettings_new : PhaseDetectorSettings :=
  mkSettings 0 fzero true false PEAK NO_PHASE 0 0 (-1) 0 false 0.

Definition set_samplesSinceTrigger v m :=
  mkSettings v (lastSample m) (isActive m) (wasTriggered m) (detectorType m)
    (currentPhase m) (triggerChannel m) (outputLine m) (gateLine m)
    (lastOutputLine m) (outputLineChanged m) (lastTTLWord m).
Definition set_lastSample v m :=
  mkSettings (samplesSinceTrigger m) v (isActive m) (wasTriggered m) (detectorType m)
    (currentPhase m) (triggerChannel m) (outputLine m) (gateLine m)
    (lastOutputLine m) (outputLineChanged m) (lastTTLWord m).
Definition set_isActive v m :=
  mkSettings (samplesSinceTrigger m) (lastSample m) v (wasTriggered m) (detectorType m)
    (currentPhase m) (triggerChannel m) (outputLine m) (gateLine m)
    (lastOutputLine m) (outputLineChanged m) (lastTTLWord m).
Definition set_wasTriggered v m :=
  mkSettings (samplesSinceTrigger m) (lastSample m) (isActive m) v (detectorType m)
    (currentPhase m) (triggerChannel m) (outputLine m) (gateLine m)
    (lastOutputLine m) (outputLineChanged m) (lastTTLWord m).
Definition set_detectorType v m :=
  mkSettings (samplesSinceTrigger m) (lastSample m) (isActive m) (wasTriggered m) v
    (currentPhase m) (triggerChannel m) (outputLine m) (gateLine m)
    (lastOutputLine m) (outputLineChanged m) (lastTTLWord m).
Definition set_currentPhase v m :=
  mkSettings (samplesSinceTrigger m) (lastSample m) (isActive m) (wasTriggered m)
    (detectorType m) v (triggerChannel m) (outputLine m) (gateLine m)
    (lastOutputLine m) (outputLineChanged m) (lastTTLWord m).
Definition set_triggerChannel v m :=
  mkSettings (samplesSinceTrigger m) (lastSample m) (isActive m) (wasTriggered m)
    (detectorType m) (currentPhase m) v (outputLine m) (gateLine m)
    (lastOutputLine m) (outputLineChanged m) (lastTTLWord m).
Definition set_outputLine v m :=
  mkSettings (samplesSinceTrigger m) (lastSample m) (isActive m) (wasTriggered m)
    (detectorType m) (currentPhase m) (triggerChannel m) v (gateLine m)
    (lastOutputLine m) (outputLineChanged m) (lastTTLWord m).
Definition set_gateLine v m :=
  mkSettings (samplesSinceTrigger m) (lastSample m) (isActive m) (wasTriggered m)
    (detectorType m) (currentPhase m) (triggerChannel m) (outputLine m) v
    (lastOutputLine m) (outputLineChanged m) (lastTTLWord m).
Definition set_lastOutputLine v m :=
  mkSettings (samplesSinceTrigger m) (lastSample m) (isActive m) (wasTriggered m)
    (detectorType m) (currentPhase m) (triggerChannel m) (outputLine m) (gateLine m)
    v (outputLineChanged m) (lastTTLWord m).
Definition set_outputLineChanged v m :=
  mkSettings (samplesSinceTrigger m) (lastSample m) (isActive m) (wasTriggered m)
    (detectorType m) (currentPhase m) (triggerChannel m) (outputLine m) (gateLine m)
    (lastOutputLine m) v (lastTTLWord m).
Definition set_lastTTLWord v m :=
  mkSettings (samplesSinceTrigger m) (lastSample m) (isActive m) (wasTriggered m)
    (detectorType m) (currentPhase m) (triggerChannel m) (outputLine m) (gateLine m)
    (lastOutputLine m) (outputLineChanged m) v.

(* ================================================================== *)
(** ** The monad of the processing code *)

(** A computation reads and writes the stream's settings and appends to
    the block's event buffer. *)
Definition Proc (A : Type) : Type :=
  PhaseDetectorSettings -> A * PhaseDetectorSettings * list Emitted.

Definition ret {A} (a : A) : Proc A := fun m => (a, m, []).

Definition bind {A B} (c : Proc A) (k : A -> Proc B) : Proc B :=
  fun m =>
    let '(a, m1, out1) := c m in
    let '(b, m2, out2) := k a m1 in
    (b, m2, out1 ++ out2).

Definition get : Proc PhaseDetectorSettings := fun m => (m, m, []).
Definition modify (f : PhaseDetectorSettings -> PhaseDetectorSettings) : Proc unit :=
  fun m => (tt, f m, []).

(** [GenericProcessor::addEvent (ptr, i)]. *)
Definition addEvent (ptr : TTLEvent) (i : Z) : Proc unit :=
  fun m => (tt, m, [mkEmitted ptr i]).

Definition when (b : bool) (c : Proc unit) : Proc unit :=
  if b then c else ret tt.

Declare Scope proc_scope.
Delimit Scope proc_scope with proc.
Notation "x <- c ;; k" := (bind c (fun x => k))
  (at level 61, c at next level, right associativity) : proc_scope.
Notation "c ;; k" := (bind c (fun _ => k))
  (at level 61, right associativity) : proc_scope.
Local Open Scope proc_scope.

Definition state_after {A} (r : A * PhaseDetectorSettings * list Emitted) :=
  snd (fst r).
Definition emitted {A} (r : A * PhaseDetectorSettings * list Emitted) :=
  snd r.
Definition value_of {A} (r : A * PhaseDetectorSettings * list Emitted) :=
  fst (fst r).

(* ================================================================== *)
(** ** PhaseDetectorSettings::createEvent, ::clearOutputLine *)

Definition createEvent (sample_number : Z) (state : bool) : Proc TTLEvent :=
  m <- get ;;
  let ev := mkTTLEvent sample_number (outputLine m) state ByCreateEvent in
  (if state
   then modify (set_samplesSinceTrigger 0) ;; modify (set_wasTriggered true)
   else modify (set_wasTriggered false)) ;;
  ret ev.

Definition clearOutputLine (sample_number : Z) : Proc TTLEvent :=
  m <- get ;;
  let ev := mkTTLEvent sample_number (lastOutputLine m) false ByClearOutputLine in
  modify (set_outputLineChanged false) ;;
  ret ev.

(* ================================================================== *)
(** ** PhaseDetector::parameterValueChanged *)

(** [1ULL << n] on a 64-bit unsigned word, for [0 <= n < 64].  The C++
    shift is undefined for [n >= 64]; the value the function takes there
    stands for nothing in the source, and every property that depends on
    the bit tested assumes a gate line below 64.  (The gate parameter
    offers the lines -1 to 15.) *)
Definition shl64 (a n : Z) : Z := Z.shiftl a n mod 2 ^ 64.

(** A changed stream parameter: its name selects the constructor, its
    value is the argument.  [channel] carries the selected local indices
    and the stream's table from local to global channel index. *)
Inductive StreamParameter :=
| phase (value : DetectorType)
| channel (array : list Z) (getGlobalIndex : Z -> Z)
| ttl_out (value : Z)
| gate_line (value : Z)
| other_parameter.

Definition parameterValueChanged (param : StreamParameter)
  (m : PhaseDetectorSettings) : PhaseDetectorSettings :=
  match param with
  | phase value => set_detectorType value m
  | channel array getGlobalIndex =>
      match array with
      | localIndex :: _ => set_triggerChannel (getGlobalIndex localIndex) m
      | [] => set_triggerChannel (-1) m
      end
  | ttl_out value =>
      let m := set_lastOutputLine (outputLine m) m in
      let m := set_outputLine value m in
      set_outputLineChanged true m
  | gate_line newGateLine =>
      let m := set_gateLine newGateLine m in
      let ttlWord := lastTTLWord m in
      if newGateLine >=? 0
      then set_isActive (negb (Z.land ttlWord (shl64 1 newGateLine) =? 0)) m
      else set_isActive true m
  | other_parameter => m
  end.

(* ================================================================== *)
(** ** PhaseDetector::handleTTLEvent *)

Definition handleTTLEvent (ev : TTLIn) (m : PhaseDetectorSettings)
  : PhaseDetectorSettings :=
  let m := set_lastTTLWord (inWord ev) m in
  if gateLine m >? -1
  then if gateLine m =? inLine ev then set_isActive (inState ev) m else m
  else m.

(** [checkForEvents] hands every inbound TTL event of the stream to
    [handleTTLEvent], in order. *)
Definition checkForEvents (evs : list TTLIn) : Proc unit :=
  modify (fun m => fold_left (fun m ev => handleTTLEvent ev m) evs m).

(* ================================================================== *)
(** ** PhaseDetector::process, for one stream *)

Record AudioBuffer := mkBuffer {
  getNumChannels : Z;
  getReadPointer : Z -> nat -> float
}.

(** What one call of [process] sees of a stream. *)
Record Block := mkBlock {
  enable_stream : bool;
  inbound : list TTLIn;
  buffer : AudioBuffer;
  getFirstSampleNumberForBlock : Z;
  getNumSamplesInBlock : nat
}.

(** The four-way [if / else if] chain of the sample loop.  The value
    returned is the landmark whose branch was taken, if any. *)
Definition detect_landmark (firstSampleInBlock i : Z) (sample : float)
  : Proc (option DetectorType) :=
  module <- get ;;
  if flt sample (lastSample module)
     && fgt sample fzero
     && negb (PhaseType_eqb (currentPhase module) FALLING_POS)
  then
    when (DetectorType_eqb (detectorType module) PEAK)
      (ptr <- createEvent (firstSampleInBlock + i) true ;; addEvent ptr i) ;;
    modify (set_currentPhase FALLING_POS) ;;
    ret (Some PEAK)
  else if flt sample fzero
     && fge (lastSample module) fzero
     && negb (PhaseType_eqb (currentPhase module) FALLING_NEG)
  then
    when (DetectorType_eqb (detectorType module) FALLING_ZERO)
      (ptr <- createEvent (firstSampleInBlock + i) true ;; addEvent ptr i) ;;
    modify (set_currentPhase FALLING_NEG) ;;
    ret (Some FALLING_ZERO)
  else if fgt sample (lastSample module)
     && flt sample fzero
     && negb (PhaseType_eqb (currentPhase module) RISING_NEG)
  then
    when (DetectorType_eqb (detectorType module) TROUGH)
      (ptr <- createEvent (firstSampleInBlock + i) true ;; addEvent ptr i) ;;
    modify (set_currentPhase RISING_NEG) ;;
    ret (Some TROUGH)
  else if fgt sample fzero
     && fle (lastSample module) fzero
     && negb (PhaseType_eqb (currentPhase module) RISING_POS)
  then
    when (DetectorType_eqb (detectorType module) RISING_ZERO)
      (ptr <- createEvent (firstSampleInBlock + i) true ;; addEvent ptr i) ;;
    modify (set_currentPhase RISING_POS) ;;
    ret (Some RISING_ZERO)
  else ret None.

(** The pulse-width countdown of the sample loop. *)
Definition pulse_timeout (firstSampleInBlock i : Z) : Proc unit :=
  module <- get ;;
  when (wasTriggered module)
    (if samplesSinceTrigger module >? 2000
     then ptr <- createEvent (firstSampleInBlock + i) false ;; addEvent ptr i
     else modify (fun m => set_samplesSinceTrigger (samplesSinceTrigger m + 1) m)).

(** The retired-line clear of the sample loop. *)
Definition pending_clear (firstSampleInBlock i : Z) : Proc unit :=
  module <- get ;;
  when (outputLineChanged module)
    (ptr <- clearOutputLine (firstSampleInBlock + i) ;; addEvent ptr i).

(** The body of the sample loop, for the sample at offset [i]. *)
Definition process_sample (firstSampleInBlock i : Z) (sample : float) : Proc unit :=
  detect_landmark firstSampleInBlock i sample ;;
  modify (set_lastSample sample) ;;
  pulse_timeout firstSampleInBlock i ;;
  pending_clear firstSampleInBlock i.

(** [for (int i = start; i < start + count; ++i)]. *)
Fixpoint sample_loop (buf : AudioBuffer) (firstSampleInBlock : Z)
  (count start : nat) : Proc unit :=
  match count with
  | O => ret tt
  | S count' =>
      module <- get ;;
      let sample := getReadPointer buf (triggerChannel module) start in
      process_sample firstSampleInBlock (Z.of_nat start) sample ;;
      sample_loop buf firstSampleInBlock count' (S start)
  end.

(** "check to see if it's active and has a channel". *)
Definition can_detect (buf : AudioBuffer) (module : PhaseDetectorSettings) : bool :=
  isActive module
  && (outputLine module >=? 0)
  && (triggerChannel module >=? 0)
  && (triggerChannel module <? getNumChannels buf).

(** "If event is on when 'None' is selected in channel selector, turn off
    event". *)
Definition must_force_off (module : PhaseDetectorSettings) : bool :=
  wasTriggered module
  && ((triggerChannel module <? 0) || Bool.eqb (isActive module) false).

Definition guarded_loop (b : Block) : Proc unit :=
  module <- get ;;
  when (can_detect (buffer b) module)
    (sample_loop (buffer b) (getFirstSampleNumberForBlock b)
       (getNumSamplesInBlock b) 0).

Definition end_of_block (b : Block) : Proc unit :=
  module <- get ;;
  when (must_force_off module)
    (ptr <- createEvent (getFirstSampleNumberForBlock b) false ;; addEvent ptr 0).

Definition process (b : Block) : Proc unit :=
  checkForEvents (inbound b) ;;
  when (enable_stream b) (guarded_loop b ;; end_of_block b).

(* ================================================================== *)
(** ** Runs: what the host does to a stream, in order *)

Inductive Action :=
| Reconfigure (param : StreamParameter)
| ProcessBlock (b : Block).

Definition perform (a : Action) : Proc unit :=
  match a with
  | Reconfigure param => modify (parameterValueChanged param)
  | ProcessBlock b => process b
  end.

Fixpoint run (acts : list Action) : Proc unit :=
  match acts with
  | [] => ret tt
  | a :: rest => perform a ;; run rest
  end.

(* ================================================================== *)
(** ** The scenario of the specification *)

(** The binary32 values of the literals, as sign, mantissa, exponent. *)
Definition f_0_5 : float := S754_finite false 8388608 (-24).    (* 0x3F000000 *)
Definition f_0_3 : float := S754_finite false 10066330 (-25).   (* 0x3E99999A *)
Definition f_m0_1 : float := S754_finite true 13421773 (-27).   (* 0xBDCCCCCD *)
Definition f_m0_4 : float := S754_finite true 13421773 (-25).   (* 0xBECCCCCD *)
Definition f_m0_2 : float := S754_finite true 13421773 (-26).   (* 0xBE4CCCCD *)
Definition f_0_1 : float := S754_finite false 13421773 (-27).   (* 0x3DCCCCCD *)
Definition f_1_0 : float := S754_finite false 8388608 (-23).    (* 0x3F800000 *)

(** A buffer with [n] channels, every one of which carries [samples]. *)
Definition buffer_of (n : Z) (samples : list float) : AudioBuffer :=
  mkBuffer n (fun _ i => nth i samples fzero).

Definition block_of (n : Z) (first : Z) (samples : list float) : Block :=
  mkBlock true [] (buffer_of n samples) first (length samples).

Definition scenario_samples : list float :=
  [f_0_5; f_0_3; f_m0_1; f_m0_4; f_m0_2; f_0_1].

Definition is_binary32 (x : float) : bool := valid_binary 24 128 x.

(* ================================================================== *)
(** ** Closed forms of the sample step, the loop and [process] *)

(** The decision table of the landmark chain: the branch taken for the
    sample [s], the previous sample [p] and the remembered phase [ph]. *)
Definition landmark_table (s p : float) (ph : PhaseType) : option DetectorType :=
  if flt s p && fgt s fzero && negb (PhaseType_eqb ph FALLING_POS) then Some PEAK
  else if flt s fzero && fge p fzero && negb (PhaseType_eqb ph FALLING_NEG)
  then Some FALLING_ZERO
  else if fgt s p && flt s fzero && negb (PhaseType_eqb ph RISING_NEG) then Some TROUGH
  else if fgt s fzero && fle p fzero && negb (PhaseType_eqb ph RISING_POS)
  then Some RISING_ZERO
  else None.

Definition landmark_at (s : float) (m : PhaseDetectorSettings) : option DetectorType :=
  landmark_table s (lastSample m) (currentPhase m).

(** The sample matches the configured target. *)
Definition target_hit (s : float) (m : PhaseDetectorSettings) : bool :=
  match landmark_at s m with
  | Some d => DetectorType_eqb (detectorType m) d
  | None => false
  end.

(** The pulse-width countdown expires on this sample. *)
Definition timed_out (s : float) (m : PhaseDetectorSettings) : bool :=
  negb (target_hit s m) && wasTriggered m && (samplesSinceTrigger m >? 2000).

Definition step_events (first i : Z) (s : float) (m : PhaseDetectorSettings)
  : list Emitted :=
  (if target_hit s m then [trigger_on first i (outputLine m)] else [])
  ++ (if timed_out s m then [trigger_off first i (outputLine m)] else [])
  ++ (if outputLineChanged m then [line_clear first i (lastOutputLine m)] else []).

Definition step_state (s : float) (m : PhaseDetectorSettings) : PhaseDetectorSettings :=
  mkSettings
    (if target_hit s m then 1
     else if wasTriggered m && negb (samplesSinceTrigger m >? 2000)
          then samplesSinceTrigger m + 1
          else samplesSinceTrigger m)
    s
    (isActive m)
    (if target_hit s m then true
     else if timed_out s m then false else wasTriggered m)
    (detectorType m)
    (match landmark_at s m with Some d => phase_of d | None => currentPhase m end)
    (triggerChannel m) (outputLine m) (gateLine m) (lastOutputLine m)
    false
    (lastTTLWord m).

(** The loop over the samples [samples], the first of which is at offset
    [i]: final state and events. *)
Fixpoint feed (first i : Z) (samples : list float) (m : PhaseDetectorSettings)
  : PhaseDetectorSettings * list Emitted :=
  match samples with
  | [] => (m, [])
  | s :: rest =>
      let r := feed first (i + 1) rest (step_state s m) in
      (fst r, step_events first i s m ++ snd r)
  end.

(** The samples the loop reads from channel [ch]. *)
Definition block_samples (buf : AudioBuffer) (ch : Z) (count start : nat) : list float :=
  map (getReadPointer buf ch) (seq start count).

Definition after_inbound (b : Block) (m : PhaseDetectorSettings) : PhaseDetectorSettings :=
  fold_left (fun m ev => handleTTLEvent ev m) (inbound b) m.

Definition samples_of (b : Block) (m : PhaseDetectorSettings) : list float :=
  block_samples (buffer b) (triggerChannel m) (getNumSamplesInBlock b) 0.

(** Fields the sample loop never writes. *)
Definition same_config (m m' : PhaseDetectorSettings) : Prop :=
  isActive m' = isActive m /\ detectorType m' = detectorType m
  /\ triggerChannel m' = triggerChannel m /\ outputLine m' = outputLine m
  /\ gateLine m' = gateLine m /\ lastOutputLine m' = lastOutputLine m
  /\ lastTTLWord m' = lastTTLWord m.

(** [process] on one block, in closed form. *)
Definition process_result (b : Block) (m : PhaseDetectorSettings)
  : PhaseDetectorSettings * list Emitted :=
  let m0 := after_inbound b m in
  if enable_stream b then
    if can_detect (buffer b) m0
    then feed (getFirstSampleNumberForBlock b) 0 (samples_of b m0) m0
    else if must_force_off m0
         then (set_wasTriggered false m0,
               [trigger_off (getFirstSampleNumberForBlock b) 0 (outputLine m0)])
         else (m0, [])
  else (m0, []).

(** Fields [handleTTLEvent] never writes. *)
Definition same_detector (m m' : PhaseDetectorSettings) : Prop :=
  samplesSinceTrigger m' = samplesSinceTrigger m /\ lastSample m' = lastSample m
  /\ wasTriggered m' = wasTriggered m /\ detectorType m' = detectorType m
  /\ currentPhase m' = currentPhase m /\ triggerChannel m' = triggerChannel m
  /\ outputLine m' = outputLine m /\ gateLine m' = gateLine m
  /\ lastOutputLine m' = lastOutputLine m
  /\ outputLineChanged m' = outputLineChanged m.

(* ================================================================== *)
(** ** Inputs and notions used by the statements *)

(** The detector state of the scenario: [lastSample = 0.0], no phase yet,
    no pulse held, target [TROUGH], active, output line 3.  The remaining
    fields are free. *)
Definition scenario_settings (chan sst gate lastOut : Z) (changed : bool) (word : Z)
  : PhaseDetectorSettings :=
  mkSettings sst fzero true false TROUGH NO_PHASE chan 3 gate lastOut changed word.

(** [process] up to the end of the sample loop, before the end-of-block
    check. *)
Definition through_loop (b : Block) : Proc unit :=
  checkForEvents (inbound b) ;;
  when (enable_stream b) (guarded_loop b).

(** A pulse is held while the selected channel lies beyond the buffer. *)
Definition held_beyond_buffer : PhaseDetectorSettings :=
  mkSettings 7 fzero true true PEAK RISING_POS 5 0 (-1) 0 false 0.

(** The gate line 2 is selected while its bit in the TTL word is clear. *)
Definition gate_closed : PhaseDetectorSettings :=
  parameterValueChanged (gate_line 2) PhaseDetectorSettings_new.

(** The values of a [uint64]. *)
Definition uint64_range (w : Z) : Prop := 0 <= w < 2 ^ 64.

(** The TTL events the detector makes, by absolute sample number. *)
Definition ttl_on (sample line : Z) : TTLEvent := mkTTLEvent sample line true ByCreateEvent.
Definition ttl_off (sample line : Z) : TTLEvent := mkTTLEvent sample line false ByCreateEvent.
Definition ttl_clear (sample line : Z) : TTLEvent :=
  mkTTLEvent sample line false ByClearOutputLine.

(** A run of blocks with no reconfiguration in between. *)
Definition blocks (bs : list Block) : list Action := map ProcessBlock bs.

(** The blocks follow one another without a gap, starting at sample [F]. *)
Fixpoint contiguous (F : Z) (bs : list Block) : Prop :=
  match bs with
  | [] => True
  | b :: rest =>
      getFirstSampleNumberForBlock b = F
      /\ contiguous (F + Z.of_nat (getNumSamplesInBlock b)) rest
  end.

Fixpoint total_samples (bs : list Block) : Z :=
  match bs with
  | [] => 0
  | b :: rest => Z.of_nat (getNumSamplesInBlock b) + total_samples rest
  end.

(** Throughout the run the stream is enabled and, at every block, the
    detector is active with a valid channel and output line. *)
Fixpoint stays_detecting (bs : list Block) (m : PhaseDetectorSettings) : Prop :=
  match bs with
  | [] => True
  | b :: rest =>
      enable_stream b = true
      /\ can_detect (buffer b) (after_inbound b m) = true
      /\ stays_detecting rest (state_after (process b m))
  end.

(** The samples the run reads, in order. *)
Fixpoint run_samples (bs : list Block) (m : PhaseDetectorSettings) : list float :=
  match bs with
  | [] => []
  | b :: rest => samples_of b m ++ run_samples rest m
  end.

(** Runs of actions in which parameters may change between the blocks. *)





(** Two troughs six samples apart, then 2100 flat samples. *)
Definition retrigger_run : list Block :=
  [block_of 1 0 [f_m0_4; f_m0_2; f_0_1; f_m0_1; f_m0_2; f_m0_1];
   block_of 1 6 (repeat f_m0_1 2100)].

(** The landmarks whose branch the sample loop takes, in order. *)
Fixpoint landmark_trace (buf : AudioBuffer) (firstSampleInBlock : Z)
  (count start : nat) (m : PhaseDetectorSettings) : list DetectorType :=
  match count with
  | O => []
  | S count' =>
      let sample := getReadPointer buf (triggerChannel m) start in
      let i := Z.of_nat start in
      match value_of (detect_landmark firstSampleInBlock i sample m) with
      | Some d => [d]
      | None => []
      end
      ++ landmark_trace buf firstSampleInBlock count' (S start)
           (state_after (process_sample firstSampleInBlock i sample m))
  end.

(** The same, over a list of samples and the closed form of the step. *)
Fixpoint landmarks_of (samples : list float) (m : PhaseDetectorSettings)
  : list DetectorType :=
  match samples with
  | [] => []
  | s :: rest =>
      match landmark_at s m with Some d => [d] | None => [] end
      ++ landmarks_of rest (step_state s m)
  end.

(** No two neighbours are the same landmark. *)
Fixpoint alternating (l : list DetectorType) : Prop :=
  match l with
  | x :: ((y :: _) as rest) => x <> y /\ alternating rest
  | _ => True
  end.

(** A waveform wobbling on the falling side of a peak: 0.5, 0.3 three
    times over, entered from the rising positive phase. *)
Definition wobble_settings : PhaseDetectorSettings :=
  mkSettings 0 f_0_3 true false PEAK RISING_POS 0 3 (-1) 0 false 0.

Definition wobble_buffer : AudioBuffer :=
  buffer_of 1 [f_0_5; f_0_3; f_0_5; f_0_3; f_0_5; f_0_3].

(** The order of the emissions of one sample. *)
Definition kind_rank (k : EventKind) : Z :=
  match k with
  | TRIGGER_ON => 0
  | TRIGGER_OFF => 1
  | LINE_CLEAR => 2
  end.

(** [e1] comes before [e2]: at an earlier offset, or at the same offset
    with a kind that is emitted first. *)
Definition emitted_before (e1 e2 : Emitted) : Prop :=
  offset e1 < offset e2
  \/ (offset e1 = offset e2 /\ kind_rank (kind e1) < kind_rank (kind e2)).

(** Two blocks give [process] the same input for the trigger channel
    [ch]. *)
Definition same_input (ch : Z) (b b' : Block) : Prop :=
  enable_stream b' = enable_stream b
  /\ inbound b' = inbound b
  /\ getFirstSampleNumberForBlock b' = getFirstSampleNumberForBlock b
  /\ getNumSamplesInBlock b' = getNumSamplesInBlock b
  /\ getNumChannels (buffer b') = getNumChannels (buffer b)
  /\ (forall i, (i < getNumSamplesInBlock b)%nat ->
        getReadPointer (buffer b') ch i = getReadPointer (buffer b) ch i).

(** The sample loop runs on the block: the stream is enabled, the
    detection guard holds after the inbound events, and the block has a
    sample. *)
Definition loop_runs (b : Block) (m : PhaseDetectorSettings) : bool :=
  enable_stream b
  && can_detect (buffer b) (after_inbound b m)
  && negb (Nat.eqb (getNumSamplesInBlock b) 0).

(** The action is not a change of the output line. *)
Definition keeps_output_line (a : Action) : bool :=
  match a with
  | Reconfigure (ttl_out _) => false
  | _ => true
  end.

Definition line_clears (evs : list Emitted) : list Emitted :=
  filter (is_kind LINE_CLEAR) evs.

(* ================================================================== *)
(** ** PhaseDetector::updateSettings, for one stream *)

(** The current values of the four stream parameters. *)
Record StreamParameters := mkStreamParameters {
  phase_value : DetectorType;
  channel_array : list Z;
  channel_table : Z -> Z;
  ttl_out_value : Z;
  gate_line_value : Z
}.

(** The body of the stream loop of [updateSettings]: the TTL word is
    reset, then the four parameters are re-applied in the order phase,
    channel, ttl_out, gate_line.  (The event channel created first is not
    part of the detector state.) *)
Definition updateSettings (p : StreamParameters) (m : PhaseDetectorSettings)
  : PhaseDetectorSettings :=
  let m := set_lastTTLWord 0 m in
  let m := parameterValueChanged (phase (phase_value p)) m in
  let m := parameterValueChanged (channel (channel_array p) (channel_table p)) m in
  let m := parameterValueChanged (ttl_out (ttl_out_value p)) m in
  parameterValueChanged (gate_line (gate_line_value p)) m.

(** The detector memory that survives reconfiguration. *)
Definition same_memory (m m' : PhaseDetectorSettings) : Prop :=
  samplesSinceTrigger m' = samplesSinceTrigger m
  /\ lastSample m' = lastSample m
  /\ wasTriggered m' = wasTriggered m
  /\ currentPhase m' = currentPhase m.

(** Channel 0 selected, output line 3, no gate. *)
Definition plain_parameters : StreamParameters :=
  mkStreamParameters TROUGH [0] (fun i => i) 3 (-1).

(* ================================================================== *)
(** ** The gate and the TTL word *)

(** The gate state agrees with the gate line's bit of the stored word. *)
Definition gate_coherent (m : PhaseDetectorSettings) : Prop :=
  0 <= gateLine m -> isActive m = Z.testbit (lastTTLWord m) (gateLine m).

(** The event reports the change of one line: its word is the previous
    word with the bit of its line set to its state. *)
Definition reports_change (prev : Z) (ev : TTLIn) : Prop :=
  uint64_range (inWord ev)
  /\ Z.testbit (inWord ev) (inLine ev) = inState ev
  /\ (forall k, k <> inLine ev -> Z.testbit (inWord ev) k = Z.testbit prev k).

Fixpoint report_changes (prev : Z) (evs : list TTLIn) : Prop :=
  match evs with
  | [] => True
  | ev :: rest => reports_change prev ev /\ report_changes (inWord ev) rest
  end.

(** The word stored after the events [evs]. *)
Definition word_after (prev : Z) (evs : list TTLIn) : Z :=
  fold_left (fun _ ev => inWord ev) evs prev.

(** Along the run, every inbound TTL event reports the change of one line
    of the word left by the events before it. *)
Fixpoint coherent_inputs (acts : list Action) (prev : Z) : Prop :=
  match acts with
  | [] => True
  | Reconfigure _ :: rest => coherent_inputs rest prev
  | ProcessBlock b :: rest =>
      report_changes prev (inbound b)
      /\ coherent_inputs rest (word_after prev (inbound b))
  end.

(** A change of the gate line selects a line below 64, for which the
    shift that tests its bit is defined. *)
Definition gate_line_defined (a : Action) : bool :=
  match a with
  | Reconfigure (gate_line v) => v <? 64
  | _ => true
  end.

(** Line 2 rises, then line 5 rises. *)
Definition gate_events : list TTLIn := [mkTTLIn 2 true 4; mkTTLIn 5 true 36].

(* ================================================================== *)
(** ** The pulse, read off the emitted events *)

(** Whether a pulse is held after the events [evs], when [held] says
    whether one was held before. *)
Fixpoint pulse_after (held : bool) (evs : list Emitted) : bool :=
  match evs with
  | [] => held
  | e :: rest =>
      pulse_after (match kind e with
                   | TRIGGER_ON => true
                   | TRIGGER_OFF => false
                   | LINE_CLEAR => held
                   end) rest
  end.

(** Every TRIGGER_OFF of [evs] finds a pulse held. *)
Fixpoint offs_close_pulses (held : bool) (evs : list Emitted) : Prop :=
  match evs with
  | [] => True
  | e :: rest =>
      match kind e with
      | TRIGGER_ON => offs_close_pulses true rest
      | TRIGGER_OFF => held = true /\ offs_close_pulses false rest
      | LINE_CLEAR => offs_close_pulses held rest
      end
  end.

(** The values the pulse-width counter takes. *)
Definition counter_range (m : PhaseDetectorSettings) : Prop :=
  0 <= samplesSinceTrigger m <= 2001.

(** The event is on the gate line of [m]. *)
Definition on_gate_line (m : PhaseDetectorSettings) (ev : TTLIn) : bool :=
  gateLine m =? inLine ev.

(* ================================================================== *)
(** ** The landmark conditions on the samples *)

(** The sign and slope condition of each branch of the landmark chain,
    for the sample [s] and the previous sample [p]. *)
Definition landmark_shape (d : DetectorType) (s p : float) : bool :=
  match d with
  | PEAK => flt s p && fgt s fzero
  | FALLING_ZERO => flt s fzero && fge p fzero
  | TROUGH => fgt s p && flt s fzero
  | RISING_ZERO => fgt s fzero && fle p fzero
  end.

Definition fnan : float := S754_nan.

(** IEEE equality of two samples. *)
Definition feq (a b : float) : bool := SFeqb a b.

(* ================================================================== *)
(** ** What the landmark detection reads *)

(** The two states agree on the previous sample, the phase and the
    selected channel. *)
Definition same_phase_memory (m m' : PhaseDetectorSettings) : Prop :=
  lastSample m' = lastSample m
  /\ currentPhase m' = currentPhase m
  /\ triggerChannel m' = triggerChannel m.

(* ================================================================== *)
(** ** PhaseDetector::process and ::handleTTLEvent over all streams *)

(** A TTL event as [checkForEvents] delivers it: the stream it belongs
    to and what [handleTTLEvent] reads of it. *)
Record StreamTTL := mkStreamTTL {
  eventStreamId : Z;
  eventBody : TTLIn
}.

(** A data stream of the processor, as [process] reads it. *)
Record DataStream := mkDataStream {
  getStreamId : Z;
  streamEnabled : bool;
  streamFirstSample : Z;
  streamNumSamples : nat
}.

(** [settings]: the settings object of each stream id. *)
Definition AllSettings := Z -> PhaseDetectorSettings.

Definition set_settings (id : Z) (m : PhaseDetectorSettings) (st : AllSettings)
  : AllSettings :=
  fun j => if j =? id then m else st j.

(** [handleTTLEvent], with the lookup [settings[eventStream]]. *)
Definition handleTTLEvent_of (ev : StreamTTL) (st : AllSettings) : AllSettings :=
  set_settings (eventStreamId ev)
    (handleTTLEvent (eventBody ev) (st (eventStreamId ev))) st.

Definition stream_block (buf : AudioBuffer) (s : DataStream) (evs : list TTLIn) : Block :=
  mkBlock (streamEnabled s) evs buf (streamFirstSample s) (streamNumSamples s).

(** The body of the stream loop of [process], on [settings[streamId]];
    the events it adds are tagged with the stream they belong to. *)
Definition process_stream (buf : AudioBuffer) (s : DataStream) (st : AllSettings)
  : AllSettings * list (Z * Emitted) :=
  let b := stream_block buf s [] in
  let r := when (enable_stream b) (guarded_loop b ;; end_of_block b)
             (st (getStreamId s)) in
  (set_settings (getStreamId s) (state_after r) st,
   map (pair (getStreamId s)) (emitted r)).

(** [for (auto stream : getDataStreams())]. *)
Fixpoint process_streams (buf : AudioBuffer) (streams : list DataStream)
  (st : AllSettings) : AllSettings * list (Z * Emitted) :=
  match streams with
  | [] => (st, [])
  | s :: rest =>
      let r1 := process_stream buf s st in
      let r2 := process_streams buf rest (fst r1) in
      (fst r2, snd r1 ++ snd r2)
  end.

(** [process]: the inbound TTL events of all streams are handled first,
    then the streams are processed in turn. *)
Definition process_all (evs : list StreamTTL) (buf : AudioBuffer)
  (streams : list DataStream) (st : AllSettings)
  : AllSettings * list (Z * Emitted) :=
  process_streams buf streams (fold_left (fun st ev => handleTTLEvent_of ev st) evs st).

(** The inbound events of stream [id], and the events emitted for it. *)
Definition events_of (id : Z) (evs : list StreamTTL) : list TTLIn :=
  map eventBody (filter (fun ev => eventStreamId ev =? id) evs).

Definition emitted_of (id : Z) (out : list (Z * Emitted)) : list Emitted :=
  map snd (filter (fun x => fst x =? id) out).

(** Two streams: stream 10 runs the scenario, stream 20 is gated on
    line 2. *)
Definition two_streams : list DataStream :=
  [mkDataStream 10 true 0 6; mkDataStream 20 true 500 6].

Definition two_settings : AllSettings :=
  fun id => if id =? 10 then scenario_settings 0 0 (-1) 0 false 0
            else set_detectorType RISING_ZERO gate_closed.
(* ================================================================== *)
(** * Properties *)

Lemma DetectorType_eqb_spec a b : reflect (a = b) (DetectorType_eqb a b).
Proof. destruct a, b; simpl; constructor; congruence. Qed.

Lemma PhaseType_eqb_spec a b : reflect (a = b) (PhaseType_eqb a b).
Proof. destruct a, b; simpl; constructor; congruence. Qed.

Lemma EventKind_eqb_spec a b : reflect (a = b) (EventKind_eqb a b).
Proof. destruct a, b; simpl; constructor; congruence. Qed.

Ltac unfold_proc :=
  unfold process_sample, detect_landmark, pulse_timeout, pending_clear,
    createEvent, clearOutputLine, bind, get, modify, when, ret, addEvent.

Ltac split_ifs :=
  repeat match goal with
    | |- context [if ?c then _ else _] => destruct c eqn:?; simpl
    end.

Lemma detect_landmark_value first i s m :
  value_of (detect_landmark first i s m) = landmark_at s m.
Proof.
  unfold landmark_at, landmark_table, value_of. unfold_proc.
  destruct m; simpl. split_ifs; reflexivity.
Qed.

Lemma process_sample_eq first i s m :
  process_sample first i s m = (tt, step_state s m, step_events first i s m).
Proof.
  unfold step_state, step_events, timed_out, target_hit, landmark_at, landmark_table,
    trigger_on, trigger_off, line_clear.
  unfold_proc.
  destruct m as [sst p act wt dt ph ch ol gl lol olc w]; simpl.
  destruct (flt s p && fgt s fzero && negb (PhaseType_eqb ph FALLING_POS)) eqn:B1;
  [| destruct (flt s fzero && fge p fzero && negb (PhaseType_eqb ph FALLING_NEG)) eqn:B2;
   [| destruct (fgt s p && flt s fzero && negb (PhaseType_eqb ph RISING_NEG)) eqn:B3;
    [| destruct (fgt s fzero && fle p fzero && negb (PhaseType_eqb ph RISING_POS)) eqn:B4]]];
  destruct dt; simpl; destruct wt; simpl;
  destruct (sst >? 2000) eqn:T; simpl; destruct olc; simpl; reflexivity.
Qed.

Lemma block_samples_length buf ch count start :
  length (block_samples buf ch count start) = count.
Proof. unfold block_samples. now rewrite length_map, length_seq. Qed.

Lemma sample_loop_eq buf first count : forall start m,
  sample_loop buf first count start m =
  (tt, fst (feed first (Z.of_nat start) (block_samples buf (triggerChannel m) count start) m),
       snd (feed first (Z.of_nat start) (block_samples buf (triggerChannel m) count start) m)).
Proof.
  induction count as [| count IH]; intros start m; [reflexivity |].
  cbn [sample_loop]. unfold bind at 1, get at 1. unfold bind at 1.
  rewrite process_sample_eq, IH.
  replace (Z.of_nat (S start)) with (Z.of_nat start + 1) by lia.
  reflexivity.
Qed.

Lemma same_config_refl m : same_config m m.
Proof. repeat split. Qed.

Lemma same_config_trans m1 m2 m3 :
  same_config m1 m2 -> same_config m2 m3 -> same_config m1 m3.
Proof. unfold same_config; intuition congruence. Qed.

Lemma step_state_config s m : same_config m (step_state s m).
Proof. repeat split. Qed.

Lemma feed_config first samples : forall i m,
  same_config m (fst (feed first i samples m)).
Proof.
  induction samples as [| s rest IH]; intros i m; simpl.
  - apply same_config_refl.
  - eapply same_config_trans; [apply step_state_config | apply IH].
Qed.

Lemma can_detect_no_force_off buf m m' :
  can_detect buf m = true -> same_config m m' -> must_force_off m' = false.
Proof.
  unfold can_detect, must_force_off.
  intros H (Ha & _ & Hc & _). rewrite Ha, Hc.
  destruct (isActive m); simpl in *; [| discriminate].
  destruct (Z.geb_spec (triggerChannel m) 0); [| rewrite andb_false_r in H; discriminate].
  destruct (Z.ltb_spec (triggerChannel m) 0); [lia |].
  now rewrite andb_false_r.
Qed.

Lemma process_eq b m :
  process b m = (tt, fst (process_result b m), snd (process_result b m)).
Proof.
  unfold process, process_result, guarded_loop, end_of_block, checkForEvents.
  fold (after_inbound b m). set (m0 := after_inbound b m).
  unfold bind at 1, modify at 1. fold (after_inbound b m). fold m0.
  destruct (enable_stream b); [| reflexivity].
  unfold when at 1. unfold bind at 1. unfold bind at 1, get at 1.
  destruct (can_detect (buffer b) m0) eqn:Hg; unfold when at 1.
  - rewrite sample_loop_eq. fold (samples_of b m0).
    unfold bind, get.
    rewrite (can_detect_no_force_off _ _ _ Hg (feed_config _ _ _ _)).
    unfold when, ret. rewrite !app_nil_r. reflexivity.
  - unfold ret at 1. unfold bind at 1, get at 1.
    destruct (must_force_off m0) eqn:Hf; unfold when; [| reflexivity].
    unfold createEvent, bind, get, modify, ret, addEvent, trigger_off. simpl.
    rewrite Z.add_0_r. reflexivity.
Qed.

Lemma process_state b m : state_after (process b m) = fst (process_result b m).
Proof. now rewrite process_eq. Qed.

Lemma process_emitted b m : emitted (process b m) = snd (process_result b m).
Proof. now rewrite process_eq. Qed.

Lemma handleTTLEvent_detector ev m : same_detector m (handleTTLEvent ev m).
Proof.
  unfold handleTTLEvent. simpl.
  destruct (gateLine m >? -1); [destruct (gateLine m =? inLine ev) |];
    repeat split.
Qed.

Lemma inbound_detector evs : forall m,
  same_detector m (fold_left (fun m ev => handleTTLEvent ev m) evs m).
Proof.
  induction evs as [| ev evs IH]; intros m; simpl; [repeat split |].
  specialize (IH (handleTTLEvent ev m)).
  pose proof (handleTTLEvent_detector ev m) as H.
  unfold same_detector in *. intuition congruence.
Qed.

Lemma after_inbound_detector b m : same_detector m (after_inbound b m).
Proof. apply inbound_detector. Qed.

Lemma scenario_samples_binary32 : forallb is_binary32 scenario_samples = true.
Proof. reflexivity. Qed.

Lemma can_detect_intro buf m :
  isActive m = true -> 0 <= outputLine m -> 0 <= triggerChannel m < getNumChannels buf ->
  can_detect buf m = true.
Proof.
  intros Ha Ho Hc. unfold can_detect. rewrite Ha.
  destruct (Z.geb_spec (outputLine m) 0); [| lia].
  destruct (Z.geb_spec (triggerChannel m) 0); [| lia].
  destruct (Z.ltb_spec (triggerChannel m) (getNumChannels buf)); [| lia].
  reflexivity.
Qed.

(** C1: on the block [0.5, 0.3, -0.1, -0.4, -0.2, 0.1] with target TROUGH,
    an active detector, a valid trigger channel, output line 3 and the
    initial state [lastSample = 0.0], [currentPhase = NO_PHASE],
    [wasTriggered = false], [process] emits exactly one TRIGGER_ON, at
    sample offset 4, on line 3, and no TRIGGER_OFF; the only other event
    is the clear of a retired line at offset 0, when one is pending. *)
Theorem C1_scenario_trough :
  forall (chan nchan first sst gate lastOut : Z) (changed : bool) (word : Z),
    0 <= chan < nchan ->
    let r := process (block_of nchan first scenario_samples)
               (scenario_settings chan sst gate lastOut changed word) in
    filter (is_kind TRIGGER_ON) (emitted r) = [trigger_on first 4 3]
    /\ filter (is_kind TRIGGER_OFF) (emitted r) = []
    /\ emitted r = (if changed then [line_clear first 0 lastOut] else [])
                   ++ [trigger_on first 4 3].
Proof.
  intros chan nchan first sst gate lastOut changed word Hc r. subst r.
  rewrite process_emitted. unfold process_result.
  cbn [block_of enable_stream inbound after_inbound fold_left buffer
       getFirstSampleNumberForBlock].
  rewrite can_detect_intro by (simpl; auto; lia).
  unfold samples_of, block_samples.
  cbn [block_of buffer getNumSamplesInBlock buffer_of getReadPointer].
  destruct changed; vm_compute; repeat split.
Qed.

Lemma C1_scenario_trough_witness :
  let r := process (block_of 1 0 scenario_samples)
             (scenario_settings 0 0 (-1) 0 false 0) in
  filter (is_kind TRIGGER_ON) (emitted r) = [trigger_on 0 4 3]
  /\ filter (is_kind TRIGGER_OFF) (emitted r) = []
  /\ emitted r = [trigger_on 0 4 3].
Proof. apply (C1_scenario_trough 0 1 0 0 (-1) 0 false 0). lia. Defined.


(** ** C2: the forced off at the end of a block *)

Lemma through_loop_eq b m :
  through_loop b m =
  (tt,
   (if enable_stream b && can_detect (buffer b) (after_inbound b m)
    then fst (process_result b m) else after_inbound b m),
   (if enable_stream b && can_detect (buffer b) (after_inbound b m)
    then snd (process_result b m) else [])).
Proof.
  unfold through_loop, process_result, guarded_loop, checkForEvents.
  unfold bind at 1, modify at 1. fold (after_inbound b m).
  destruct (enable_stream b); [| reflexivity].
  unfold when at 1. unfold bind at 1, get at 1.
  destruct (can_detect (buffer b) (after_inbound b m)) eqn:Hg; [| reflexivity].
  unfold when. rewrite sample_loop_eq. reflexivity.
Qed.

Lemma can_detect_true buf m :
  can_detect buf m = true ->
  isActive m = true /\ 0 <= outputLine m /\ 0 <= triggerChannel m < getNumChannels buf.
Proof.
  unfold can_detect. rewrite !andb_true_iff.
  intros [[[Ha Ho] Hc] Hn].
  destruct (Z.geb_spec (outputLine m) 0); [| discriminate].
  destruct (Z.geb_spec (triggerChannel m) 0); [| discriminate].
  destruct (Z.ltb_spec (triggerChannel m) (getNumChannels buf)); [| discriminate].
  auto with zarith.
Qed.

Lemma must_force_off_true m :
  wasTriggered m = true -> triggerChannel m < 0 \/ isActive m = false ->
  must_force_off m = true.
Proof.
  unfold must_force_off. intros -> [H | ->].
  - destruct (Z.ltb_spec (triggerChannel m) 0); [reflexivity | lia].
  - now rewrite orb_true_r.
Qed.

Lemma must_force_off_false m :
  0 <= triggerChannel m -> isActive m = true -> must_force_off m = false.
Proof.
  unfold must_force_off. intros H ->.
  destruct (Z.ltb_spec (triggerChannel m) 0); [lia |]. now rewrite andb_false_r.
Qed.

(** With a selected channel and an open gate the end-of-block check does
    nothing, also when the channel lies beyond the buffer. *)
Lemma end_of_block_idle (b : Block) (m : PhaseDetectorSettings) :
  enable_stream b = true ->
  let m1 := state_after (through_loop b m) in
  0 <= triggerChannel m1 -> isActive m1 = true ->
  state_after (process b m) = m1
  /\ emitted (process b m) = emitted (through_loop b m).
Proof.
  intros En m1. subst m1.
  rewrite process_state, process_emitted, through_loop_eq.
  unfold state_after, emitted. cbn [fst snd].
  unfold process_result. rewrite En. cbn [andb].
  set (m0 := after_inbound b m).
  destruct (can_detect (buffer b) m0) eqn:Hg; [auto |].
  intros Hc Ha. rewrite (must_force_off_false _ Hc Ha). auto.
Qed.

(** C2 (as amended): for an enabled stream, if [wasTriggered] holds at the
    end of the sample loop and either no channel is selected
    ([triggerChannel < 0]) or [isActive] is false, the block emits exactly
    one event, a TRIGGER_OFF at the block's first sample on [outputLine],
    and [wasTriggered] becomes false. *)
Theorem C2_forced_off_amended :
  forall (b : Block) (m : PhaseDetectorSettings),
    enable_stream b = true ->
    let m1 := state_after (through_loop b m) in
    wasTriggered m1 = true ->
    triggerChannel m1 < 0 \/ isActive m1 = false ->
    emitted (process b m)
      = [trigger_off (getFirstSampleNumberForBlock b) 0 (outputLine m1)]
    /\ filter (is_kind TRIGGER_OFF) (emitted (process b m))
      = [trigger_off (getFirstSampleNumberForBlock b) 0 (outputLine m1)]
    /\ wasTriggered (state_after (process b m)) = false.
Proof.
  intros b m En m1. subst m1.
  rewrite process_state, process_emitted, through_loop_eq.
  unfold state_after, emitted. cbn [fst snd].
  unfold process_result. rewrite En. cbn [andb].
  set (m0 := after_inbound b m).
  destruct (can_detect (buffer b) m0) eqn:Hg.
  - pose proof (feed_config (getFirstSampleNumberForBlock b) (samples_of b m0) 0 m0)
      as (Ha & _ & Hc & _).
    destruct (can_detect_true _ _ Hg) as (Hact & _ & Hch & _).
    intros _ [H | H]; [lia | congruence].
  - intros Hw Hd. rewrite (must_force_off_true _ Hw Hd). auto.
Qed.

Lemma C2_forced_off_amended_witness :
  let b := block_of 1 100 [f_0_5] in
  let m := set_triggerChannel (-1) held_beyond_buffer in
  let m1 := state_after (through_loop b m) in
  enable_stream b = true
  /\ wasTriggered m1 = true
  /\ (triggerChannel m1 < 0 \/ isActive m1 = false)
  /\ emitted (process b m) = [trigger_off 100 0 0]
  /\ filter (is_kind TRIGGER_OFF) (emitted (process b m)) = [trigger_off 100 0 0]
  /\ wasTriggered (state_after (process b m)) = false.
Proof.
  split; [reflexivity |]. split; [reflexivity |].
  split; [left; reflexivity |].
  exact (C2_forced_off_amended (block_of 1 100 [f_0_5])
           (set_triggerChannel (-1) held_beyond_buffer)
           eq_refl eq_refl (or_introl eq_refl)).
Defined.

(** C2 fails as stated: with a pulse held, the gate open and the selected
    channel 5 beyond a one-channel buffer, the block emits nothing and
    [wasTriggered] stays true. *)
Lemma C2_counterexample :
  let b := block_of 1 100 [f_0_5] in
  let m1 := state_after (through_loop b held_beyond_buffer) in
  wasTriggered m1 = true
  /\ ~ (0 <= triggerChannel m1 < getNumChannels (buffer b))
  /\ emitted (process b held_beyond_buffer) = []
  /\ wasTriggered (state_after (process b held_beyond_buffer)) = true.
Proof. vm_compute. repeat split; try congruence. intros [_ H]. discriminate H. Qed.

(** ** C4: a block that fails the detection guard *)

Lemma can_detect_false buf m :
  isActive m = false \/ outputLine m < 0 \/ triggerChannel m < 0
  \/ getNumChannels buf <= triggerChannel m ->
  can_detect buf m = false.
Proof.
  unfold can_detect. intros [H | [H | [H | H]]].
  - now rewrite H.
  - destruct (Z.geb_spec (outputLine m) 0); [lia |].
    now rewrite andb_false_r.
  - destruct (Z.geb_spec (triggerChannel m) 0); [lia |].
    now rewrite andb_false_r.
  - destruct (Z.ltb_spec (triggerChannel m) (getNumChannels buf)); [lia |].
    now rewrite andb_false_r.
Qed.

(** C4 (as amended): when the detection guard fails for a block (the gate
    is closed, or [outputLine < 0], or [triggerChannel] is not an index
    into the buffer's channels), no sample of the block is read:
    [lastSample], [currentPhase], the pulse-width counter and the pending
    line clear are left as they were, and the only event the block can
    emit is the forced TRIGGER_OFF at its first sample. *)
Theorem C4_guard_fails_amended :
  forall (b : Block) (m : PhaseDetectorSettings),
    let m0 := after_inbound b m in
    (isActive m0 = false \/ outputLine m0 < 0 \/ triggerChannel m0 < 0
     \/ getNumChannels (buffer b) <= triggerChannel m0) ->
    let m' := state_after (process b m) in
    lastSample m' = lastSample m
    /\ currentPhase m' = currentPhase m
    /\ samplesSinceTrigger m' = samplesSinceTrigger m
    /\ outputLineChanged m' = outputLineChanged m
    /\ (forall e, In e (emitted (process b m)) ->
          e = trigger_off (getFirstSampleNumberForBlock b) 0 (outputLine m)).
Proof.
  intros b m m0 Hfail m'. subst m'.
  rewrite process_state, process_emitted. unfold process_result. fold m0.
  rewrite (can_detect_false _ _ Hfail).
  pose proof (after_inbound_detector b m) as (Hs & Hl & Hw & _ & Hp & _ & Ho & _ & _ & Hc).
  fold m0 in Hs, Hl, Hw, Hp, Ho, Hc.
  destruct (enable_stream b); [destruct (must_force_off m0) |]; cbn [fst snd];
    repeat split; try assumption; try (intros e []; fail).
  intros e [<- | []]. now rewrite Ho.
Qed.

Lemma C4_guard_fails_amended_witness :
  let b := block_of 1 0 [f_1_0] in
  let m0 := after_inbound b gate_closed in
  (isActive m0 = false \/ outputLine m0 < 0 \/ triggerChannel m0 < 0
   \/ getNumChannels (buffer b) <= triggerChannel m0)
  /\ lastSample (state_after (process b gate_closed)) = fzero
  /\ samplesSinceTrigger (state_after (process b gate_closed)) = 0.
Proof.
  pose proof (C4_guard_fails_amended (block_of 1 0 [f_1_0]) gate_closed
                (or_introl eq_refl)) as (Hl & _ & Hs & _).
  split; [left; reflexivity |]. split; [exact Hl | exact Hs].
Defined.

(** C4 fails as stated: with the gate closed, a block whose only sample is
    1.0 leaves [lastSample] at 0.0. *)
Lemma C4_counterexample :
  let b := block_of 1 0 [f_1_0] in
  isActive (after_inbound b gate_closed) = false
  /\ last (samples_of b (after_inbound b gate_closed)) fzero = f_1_0
  /\ lastSample (state_after (process b gate_closed)) <> f_1_0.
Proof. vm_compute. repeat split. discriminate. Qed.

(** ** C7: re-deriving the gate state *)

Lemma land_pow2_testbit w n :
  0 <= n -> (Z.land w (2 ^ n) =? 0) = negb (Z.testbit w n).
Proof.
  intros Hn.
  assert (H : Z.land w (2 ^ n) = if Z.testbit w n then 2 ^ n else 0).
  { apply Z.bits_inj'. intros k Hk.
    rewrite Z.land_spec, Z.pow2_bits_eqb by assumption.
    destruct (Z.eqb_spec n k) as [-> | Hne].
    - destruct (Z.testbit w k) eqn:E.
      + rewrite Z.pow2_bits_eqb, Z.eqb_refl by assumption. reflexivity.
      + now rewrite Z.bits_0.
    - rewrite andb_false_r.
      destruct (Z.testbit w n).
      + rewrite Z.pow2_bits_eqb by assumption.
        destruct (Z.eqb_spec n k); congruence.
      + now rewrite Z.bits_0. }
  rewrite H. destruct (Z.testbit w n); [| reflexivity].
  simpl. apply Z.eqb_neq. pose proof (Z.pow_pos_nonneg 2 n). lia.
Qed.

Lemma gate_bit w n :
  0 <= n < 64 ->
  negb (Z.land w (shl64 1 n) =? 0) = Z.testbit w n.
Proof.
  intros Hn. unfold shl64. rewrite Z.shiftl_1_l, Z.mod_small.
  - rewrite land_pow2_testbit by lia. apply negb_involutive.
  - split; [apply Z.pow_nonneg; lia | apply Z.pow_lt_mono_r; lia].
Qed.

(** C7: after the gate line is reconfigured to [L], a line below 64
    (the width of the TTL word, within which the shift [1ULL << L] is
    defined), [gateLine = L], and [isActive] is true if [L < 0] and
    otherwise is bit [L] of the stored TTL word; the stored word is kept
    and no new TTL event is needed. *)
Theorem C7_gate_rederivation :
  forall (m : PhaseDetectorSettings) (L : Z),
    L < 64 ->
    let m' := parameterValueChanged (gate_line L) m in
    gateLine m' = L
    /\ isActive m' = (if L <? 0 then true else Z.testbit (lastTTLWord m) L)
    /\ lastTTLWord m' = lastTTLWord m.
Proof.
  intros m L HL m'. subst m'. cbn [parameterValueChanged].
  destruct (Z.geb_spec L 0) as [Hge | Hlt];
    destruct (Z.ltb_spec L 0) as [Hlt' | Hge']; try lia;
    cbn; repeat split.
  apply gate_bit; lia.
Qed.

Lemma C7_gate_rederivation_witness :
  let m := set_lastTTLWord 4 (set_isActive false PhaseDetectorSettings_new) in
  2 < 64
  /\ gateLine (parameterValueChanged (gate_line 2) m) = 2
  /\ isActive (parameterValueChanged (gate_line 2) m) = true
  /\ isActive (parameterValueChanged (gate_line (-1)) (gate_closed)) = true.
Proof.
  assert (H2 : 2 < 64) by lia.
  assert (H1 : -1 < 64) by lia.
  pose proof (C7_gate_rederivation
                (set_lastTTLWord 4 (set_isActive false PhaseDetectorSettings_new)) 2 H2)
    as (Hg & Ha & _).
  pose proof (C7_gate_rederivation gate_closed (-1) H1) as (_ & Ha' & _).
  exact (conj H2 (conj Hg (conj Ha Ha'))).
Defined.

(** Setting the gate line to a line whose bit is set opens the gate at
    once; setting it to [-1] always opens it. *)
Lemma gate_line_opens (m : PhaseDetectorSettings) (L : Z) :
  0 <= L < 64 -> Z.testbit (lastTTLWord m) L = true ->
  isActive (parameterValueChanged (gate_line L) m) = true.
Proof.
  intros HL Hb. cbn [parameterValueChanged].
  destruct (Z.geb_spec L 0); [| lia]. cbn.
  unfold shl64. rewrite Z.shiftl_1_l, Z.mod_small.
  - rewrite land_pow2_testbit by lia. now rewrite Hb.
  - split; [apply Z.pow_nonneg; lia | apply Z.pow_lt_mono_r; lia].
Qed.

Lemma gate_line_disabled (m : PhaseDetectorSettings) :
  isActive (parameterValueChanged (gate_line (-1)) m) = true.
Proof. reflexivity. Qed.

(** ** Events of the sample loop *)

Lemma feed_app first l1 : forall l2 i m,
  feed first i (l1 ++ l2) m =
  (fst (feed first (i + Z.of_nat (length l1)) l2 (fst (feed first i l1 m))),
   snd (feed first i l1 m)
   ++ snd (feed first (i + Z.of_nat (length l1)) l2 (fst (feed first i l1 m)))).
Proof.
  induction l1 as [| s l1 IH]; intros l2 i m.
  - cbn [app feed length fst snd]. rewrite Z.add_0_r.
    now destruct (feed first i l2 m).
  - cbn [app feed length fst snd]. rewrite IH.
    replace (i + Z.of_nat (S (length l1))) with (i + 1 + Z.of_nat (length l1)) by lia.
    cbn [fst snd]. now rewrite app_assoc.
Qed.

(** The shape of the events of one sample. *)
Lemma step_events_inv first i s m e :
  In e (step_events first i s m) ->
  (e = trigger_on first i (outputLine m) /\ target_hit s m = true)
  \/ (e = trigger_off first i (outputLine m) /\ timed_out s m = true)
  \/ (e = line_clear first i (lastOutputLine m) /\ outputLineChanged m = true).
Proof.
  unfold step_events. rewrite !in_app_iff.
  destruct (target_hit s m), (timed_out s m), (outputLineChanged m); simpl;
    intuition auto.
Qed.

Lemma step_events_on first i s m :
  target_hit s m = true -> In (trigger_on first i (outputLine m)) (step_events first i s m).
Proof. intros H. unfold step_events. rewrite H. now left. Qed.

Lemma step_events_off first i s m :
  timed_out s m = true -> In (trigger_off first i (outputLine m)) (step_events first i s m).
Proof.
  intros H. unfold step_events. rewrite H.
  apply in_or_app. right. now left.
Qed.

Lemma target_hit_not_timed_out s m : target_hit s m = true -> timed_out s m = false.
Proof. unfold timed_out. now intros ->. Qed.

(** Every event of the loop sits at the offset of its sample, carries the
    matching sample number and goes to the line of its kind. *)
Lemma feed_events_inv first l : forall i m e,
  In e (snd (feed first i l m)) ->
  i <= offset e < i + Z.of_nat (length l)
  /\ (e = trigger_on first (offset e) (outputLine m)
      \/ e = trigger_off first (offset e) (outputLine m)
      \/ e = line_clear first (offset e) (lastOutputLine m)).
Proof.
  induction l as [| s l IH]; intros i m e; cbn [feed snd length]; [intros [] |].
  rewrite in_app_iff. intros [H | H].
  - apply step_events_inv in H.
    destruct H as [[-> _] | [[-> _] | [-> _]]]; cbn [offset trigger_on trigger_off line_clear];
      (split; [lia | auto]).
  - apply IH in H. destruct H as [Hr Hs]. split; [lia | exact Hs].
Qed.

Lemma feed_offsets first l i m e :
  In e (snd (feed first i l m)) -> i <= offset e < i + Z.of_nat (length l).
Proof. intros H. now apply feed_events_inv in H. Qed.

Lemma feed_sample_numbers first l i m e :
  In e (snd (feed first i l m)) -> getSampleNumber (event e) = first + offset e.
Proof.
  intros H. apply feed_events_inv in H.
  destruct H as [_ [H | [H | H]]]; rewrite H at 1; reflexivity.
Qed.

Lemma trigger_on_inj first i L i' L' : trigger_on first i L = trigger_on first i' L' -> i = i' /\ L = L'.
Proof. unfold trigger_on. intros H. inversion H. auto. Qed.

(** ** The pulse-width countdown *)

(** With a pulse held and the counter set to expire at offset [D], the
    loop either reaches [D] and emits the timeout off there, or ends
    before [D] with the countdown still running, as long as no further
    on-event intervenes. *)
Lemma feed_countdown first l : forall i m D,
  wasTriggered m = true ->
  samplesSinceTrigger m = 2001 - (D - i) ->
  i <= D ->
  (forall k, i <= k <= D ->
     ~ In (trigger_on first k (outputLine m)) (snd (feed first i l m))) ->
  if D <? i + Z.of_nat (length l)
  then In (trigger_off first D (outputLine m)) (snd (feed first i l m))
  else wasTriggered (fst (feed first i l m)) = true
       /\ samplesSinceTrigger (fst (feed first i l m))
          = 2001 - (D - (i + Z.of_nat (length l))).
Proof.
  induction l as [| s l IH]; intros i m D Hw Hs HiD Hno.
  - cbn [feed fst snd length]. rewrite Z.add_0_r.
    destruct (Z.ltb_spec D i); [lia |]. split; [assumption | lia].
  - cbn [feed fst snd length].
    assert (Hhit : target_hit s m = false).
    { destruct (target_hit s m) eqn:E; [| reflexivity].
      exfalso. apply (Hno i); [lia |].
      cbn [feed snd]. apply in_or_app. left. now apply step_events_on. }
    destruct (Z.eq_dec D i) as [-> | Hne].
    + destruct (Z.ltb_spec i (i + Z.of_nat (S (length l)))); [| lia].
      apply in_or_app. left. apply step_events_off.
      unfold timed_out. rewrite Hhit, Hw. cbn.
      destruct (Z.gtb_spec (samplesSinceTrigger m) 2000); [reflexivity | lia].
    + assert (Hnt : (samplesSinceTrigger m >? 2000) = false).
      { destruct (Z.gtb_spec (samplesSinceTrigger m) 2000); [lia | reflexivity]. }
      specialize (IH (i + 1) (step_state s m) D).
      replace (i + Z.of_nat (S (length l))) with (i + 1 + Z.of_nat (length l)) by lia.
      assert (Hw' : wasTriggered (step_state s m) = true).
      { cbn [step_state wasTriggered]. unfold timed_out. now rewrite Hhit, Hw, Hnt. }
      assert (Hs' : samplesSinceTrigger (step_state s m) = 2001 - (D - (i + 1))).
      { cbn [step_state samplesSinceTrigger]. rewrite Hhit, Hw, Hnt. cbn [andb negb]. lia. }
      specialize (IH Hw' Hs' ltac:(lia)).
      cbn [step_state outputLine] in IH.
      assert (Hno' : forall k, i + 1 <= k <= D ->
                ~ In (trigger_on first k (outputLine m))
                    (snd (feed first (i + 1) l (step_state s m)))).
      { intros k Hk Hin. apply (Hno k); [lia |].
        cbn [feed snd]. apply in_or_app. now right. }
      specialize (IH Hno').
      destruct (D <? i + 1 + Z.of_nat (length l)); [| exact IH].
      apply in_or_app. now right.
Qed.

Lemma step_events_on_inv first i s m k L :
  In (trigger_on first k L) (step_events first i s m) ->
  k = i /\ L = outputLine m /\ target_hit s m = true.
Proof.
  intros H. apply step_events_inv in H.
  destruct H as [[E Hh] | [[E _] | [E _]]];
    unfold trigger_on, trigger_off, line_clear in E; inversion E; auto.
Qed.


Lemma step_state_after_hit s m :
  target_hit s m = true ->
  wasTriggered (step_state s m) = true /\ samplesSinceTrigger (step_state s m) = 1.
Proof. intros H. cbn [step_state wasTriggered samplesSinceTrigger]. now rewrite H. Qed.

(** An on-event at offset [k] that is not followed by another within 2001
    samples is followed by the timeout off at offset [k + 2001]. *)
Lemma feed_on_then_off first l : forall i m k L,
  In (trigger_on first k L) (snd (feed first i l m)) ->
  (forall k', k < k' <= k + 2001 ->
     ~ In (trigger_on first k' L) (snd (feed first i l m))) ->
  k + 2001 < i + Z.of_nat (length l) ->
  In (trigger_off first (k + 2001) L) (snd (feed first i l m)).
Proof.
  induction l as [| s l IH]; intros i m k L Hin Hno Hlen; [destruct Hin |].
  cbn [feed snd length] in *.
  apply in_app_or in Hin. apply in_or_app. right.
  assert (Hno' : forall k', k < k' <= k + 2001 ->
            ~ In (trigger_on first k' L) (snd (feed first (i + 1) l (step_state s m)))).
  { intros k' Hk Hin'. apply (Hno k' Hk). apply in_or_app. now right. }
  destruct Hin as [Hin | Hin].
  - apply step_events_on_inv in Hin. destruct Hin as (-> & -> & Hhit).
    destruct (step_state_after_hit s m Hhit) as [Hw Hs].
    pose proof (feed_countdown first l (i + 1) (step_state s m) (i + 2001)
                  Hw ltac:(lia) ltac:(lia)) as Hc.
    cbn [step_state outputLine] in Hc.
    destruct (Z.ltb_spec (i + 2001) (i + 1 + Z.of_nat (length l))); [| lia].
    apply Hc. intros k' Hk. apply Hno'. lia.
  - apply IH; [assumption | assumption | lia].
Qed.

(** A held pulse whose counter is at most the distance from offset [k]
    is not timed out before offset [k + 2001]. *)
Lemma feed_hold first l : forall i m k,
  wasTriggered m = true -> samplesSinceTrigger m <= i - k -> k < i ->
  (forall e, In e (snd (feed first i l m)) -> kind e = TRIGGER_OFF -> k + 2000 < offset e)
  /\ (i + Z.of_nat (length l) <= k + 2001 ->
      wasTriggered (fst (feed first i l m)) = true
      /\ samplesSinceTrigger (fst (feed first i l m)) <= i + Z.of_nat (length l) - k).
Proof.
  induction l as [| s l IH]; intros i m k Hw Hs Hk.
  - cbn [feed fst snd length]. split; [intros e [] |]. intros _. split; [assumption | lia].
  - destruct (Z.le_gt_cases (k + 2001) i) as [Hfar | Hnear].
    + split.
      * intros e He _. apply feed_offsets in He. lia.
      * cbn [length]. lia.
    + assert (Hnt : (samplesSinceTrigger m >? 2000) = false).
      { destruct (Z.gtb_spec (samplesSinceTrigger m) 2000); [lia | reflexivity]. }
      assert (Hto : timed_out s m = false).
      { unfold timed_out. rewrite Hnt. now rewrite andb_false_r. }
      assert (Hw' : wasTriggered (step_state s m) = true).
      { cbn [step_state wasTriggered]. rewrite Hto, Hw. now destruct (target_hit s m). }
      assert (Hs' : samplesSinceTrigger (step_state s m) <= i + 1 - k).
      { cbn [step_state samplesSinceTrigger]. rewrite Hw, Hnt. cbn [andb negb].
        destruct (target_hit s m); lia. }
      destruct (IH (i + 1) (step_state s m) k Hw' Hs' ltac:(lia)) as [IHe IHs].
      cbn [feed fst snd length]. split.
      * intros e He Hkind. apply in_app_or in He. destruct He as [He | He].
        -- apply step_events_inv in He.
           destruct He as [[-> _] | [[-> Ht] | [-> _]]]; try discriminate Hkind.
           congruence.
        -- now apply IHe.
      * intros Hlen. replace (i + Z.of_nat (S (length l))) with (i + 1 + Z.of_nat (length l)) by lia.
        apply IHs. lia.
Qed.

(** No off-event falls within 2000 samples after an on-event. *)
Lemma feed_on_holds first l : forall i m k L e,
  In (trigger_on first k L) (snd (feed first i l m)) ->
  In e (snd (feed first i l m)) -> kind e = TRIGGER_OFF ->
  ~ (k <= offset e <= k + 2000).
Proof.
  induction l as [| s l IH]; intros i m k L e Hon He Hkind; [destruct Hon |].
  cbn [feed snd] in *.
  apply in_app_or in Hon. apply in_app_or in He.
  destruct Hon as [Hon | Hon].
  - apply step_events_on_inv in Hon. destruct Hon as (-> & -> & Hhit).
    destruct He as [He | He].
    + apply step_events_inv in He.
      destruct He as [[-> _] | [[-> Ht] | [-> _]]]; try discriminate Hkind.
      rewrite (target_hit_not_timed_out _ _ Hhit) in Ht. discriminate.
    + destruct (step_state_after_hit s m Hhit) as [Hw Hs].
      destruct (feed_hold first l (i + 1) (step_state s m) i Hw ltac:(lia) ltac:(lia))
        as [Hh _].
      specialize (Hh e He Hkind). lia.
  - destruct He as [He | He].
    + apply feed_offsets in Hon. cbn [offset trigger_on] in Hon.
      apply step_events_inv in He.
      destruct He as [[-> _] | [[-> _] | [-> _]]]; cbn [offset trigger_on trigger_off line_clear]; lia.
    + eapply IH; eassumption.
Qed.

(** ** Runs of blocks as one sample loop *)

Lemma same_detector_refl m : same_detector m m.
Proof. repeat split. Qed.

Lemma same_detector_trans m1 m2 m3 :
  same_detector m1 m2 -> same_detector m2 m3 -> same_detector m1 m3.
Proof. unfold same_detector; intuition congruence. Qed.

Lemma same_detector_sym m1 m2 : same_detector m1 m2 -> same_detector m2 m1.
Proof. unfold same_detector; intuition congruence. Qed.

(** The sample step neither reads nor writes the gate state or the TTL
    word. *)
Lemma step_gate_blind first i s m m0 :
  same_detector m m0 ->
  step_events first i s m0 = step_events first i s m
  /\ same_detector (step_state s m) (step_state s m0).
Proof.
  destruct m, m0. unfold same_detector. cbn.
  intros (-> & -> & -> & -> & -> & -> & -> & -> & -> & ->).
  split; [reflexivity | repeat split].
Qed.

Lemma feed_gate_blind first l : forall i m m0,
  same_detector m m0 ->
  snd (feed first i l m0) = snd (feed first i l m)
  /\ same_detector (fst (feed first i l m)) (fst (feed first i l m0)).
Proof.
  induction l as [| s l IH]; intros i m m0 H; cbn [feed fst snd]; [auto |].
  destruct (step_gate_blind first i s m m0 H) as [He Hs].
  destruct (IH (i + 1) _ _ Hs) as [IHe IHs].
  now rewrite He, IHe.
Qed.

(** Moving the block boundary changes offsets, not the TTL events. *)
Lemma feed_shift first first' l : forall i i' m,
  first + i = first' + i' ->
  fst (feed first i l m) = fst (feed first' i' l m)
  /\ map event (snd (feed first i l m)) = map event (snd (feed first' i' l m)).
Proof.
  induction l as [| s l IH]; intros i i' m H; cbn [feed fst snd]; [auto |].
  destruct (IH (i + 1) (i' + 1) (step_state s m) ltac:(lia)) as [IHs IHe].
  split; [assumption |].
  rewrite !map_app, IHe. f_equal.
  unfold step_events, trigger_on, trigger_off, line_clear. rewrite H.
  destruct (target_hit s m), (timed_out s m), (outputLineChanged m); reflexivity.
Qed.

Lemma run_cons a rest m :
  run (a :: rest) m =
  (tt, state_after (run rest (state_after (perform a m))),
   emitted (perform a m) ++ emitted (run rest (state_after (perform a m)))).
Proof.
  cbn [run]. unfold bind, state_after, emitted.
  destruct (perform a m) as [[[] m1] e1]. cbn [fst snd].
  destruct (run rest m1) as [[[] m2] e2]. reflexivity.
Qed.

Lemma run_cons_state a rest m :
  state_after (run (a :: rest) m) = state_after (run rest (state_after (perform a m))).
Proof. now rewrite run_cons. Qed.

Lemma run_cons_emitted a rest m :
  emitted (run (a :: rest) m)
  = emitted (perform a m) ++ emitted (run rest (state_after (perform a m))).
Proof. now rewrite run_cons. Qed.

Lemma run_samples_ext bs m m' :
  triggerChannel m = triggerChannel m' -> run_samples bs m = run_samples bs m'.
Proof.
  intros H. induction bs as [| b bs IH]; cbn [run_samples]; [reflexivity |].
  unfold samples_of. now rewrite H, IH.
Qed.

Lemma run_samples_length bs m :
  Z.of_nat (length (run_samples bs m)) = total_samples bs.
Proof.
  induction bs as [| b bs IH]; cbn [run_samples total_samples]; [reflexivity |].
  rewrite length_app. unfold samples_of. rewrite block_samples_length. lia.
Qed.

Lemma process_detecting b m :
  enable_stream b = true -> can_detect (buffer b) (after_inbound b m) = true ->
  process_result b m
  = feed (getFirstSampleNumberForBlock b) 0 (samples_of b (after_inbound b m))
      (after_inbound b m).
Proof. intros En Hg. unfold process_result. now rewrite En, Hg. Qed.

(** A run of contiguous blocks during which the detector stays active
    emits the TTL events of one loop over all its samples, and ends in the
    state of that loop up to the gate fields. *)
Lemma run_flatten bs : forall F m mref,
  same_detector mref m -> contiguous F bs -> stays_detecting bs m ->
  map event (emitted (run (blocks bs) m))
  = map event (snd (feed F 0 (run_samples bs mref) mref))
  /\ same_detector (fst (feed F 0 (run_samples bs mref) mref))
       (state_after (run (blocks bs) m)).
Proof.
  induction bs as [| b bs IH]; intros F m mref Href Hc Hs.
  - cbn. split; [reflexivity | exact Href].
  - destruct Hc as [HF Hc]. destruct Hs as (En & Hg & Hs).
    unfold blocks. cbn [map]. fold (blocks bs).
    rewrite run_cons_emitted, run_cons_state. cbn [perform run_samples].
    rewrite process_state in *. rewrite process_emitted.
    rewrite (process_detecting b m En Hg) in *. rewrite HF in *.
    set (m0 := after_inbound b m) in *.
    assert (H0 : same_detector mref m0).
    { eapply same_detector_trans; [exact Href | apply after_inbound_detector]. }
    assert (Hch : samples_of b m0 = samples_of b mref).
    { unfold samples_of. f_equal. apply H0. }
    rewrite Hch in *.
    set (l1 := samples_of b mref) in *.
    destruct (feed_gate_blind F l1 0 mref m0 H0) as [He Hst].
    rewrite feed_app. cbn [fst snd].
    assert (Hlen : Z.of_nat (length l1) = Z.of_nat (getNumSamplesInBlock b)).
    { unfold l1, samples_of. now rewrite block_samples_length. }
    set (m1ref := fst (feed F 0 l1 mref)) in *.
    set (m1 := fst (feed F 0 l1 m0)) in *.
    specialize (IH (F + Z.of_nat (getNumSamplesInBlock b)) m1 m1ref Hst Hc Hs).
    assert (Hrs : run_samples bs m1ref = run_samples bs mref).
    { apply run_samples_ext. apply (feed_config F l1 0 mref). }
    rewrite Hrs in IH. destruct IH as [IHe IHs].
    destruct (feed_shift F (F + Z.of_nat (getNumSamplesInBlock b))
                (run_samples bs mref) (0 + Z.of_nat (length l1)) 0 m1ref ltac:(lia))
      as [Hfs Hfe].
    split.
    + rewrite !map_app. rewrite He. f_equal.
      etransitivity; [exact IHe | symmetry; exact Hfe].
    + rewrite Hfs. exact IHs.
Qed.

Lemma feed_event_in first l i m ev :
  In ev (map event (snd (feed first i l m)))
  <-> In (mkEmitted ev (getSampleNumber ev - first)) (snd (feed first i l m)).
Proof.
  split.
  - intros H. apply in_map_iff in H. destruct H as (e & <- & He).
    pose proof (feed_sample_numbers _ _ _ _ _ He) as Hn.
    replace (getSampleNumber (event e) - first) with (offset e) by lia.
    now destruct e.
  - intros H. apply (in_map event) in H. exact H.
Qed.

Lemma trigger_on_abs F K L : trigger_on F (K - F) L = mkEmitted (ttl_on K L) (K - F).
Proof. unfold trigger_on, ttl_on. f_equal. f_equal. lia. Qed.

Lemma trigger_off_abs F K L : trigger_off F (K - F) L = mkEmitted (ttl_off K L) (K - F).
Proof. unfold trigger_off, ttl_off. f_equal. f_equal. lia. Qed.

Lemma feed_on_in F l i m K L :
  In (ttl_on K L) (map event (snd (feed F i l m)))
  <-> In (trigger_on F (K - F) L) (snd (feed F i l m)).
Proof. rewrite feed_event_in, trigger_on_abs. reflexivity. Qed.

Lemma feed_off_in F l i m K L :
  In (ttl_off K L) (map event (snd (feed F i l m)))
  <-> In (trigger_off F (K - F) L) (snd (feed F i l m)).
Proof. rewrite feed_event_in, trigger_off_abs. reflexivity. Qed.

(** ** C9: re-triggering a held pulse *)

Lemma detect_landmark_eq first i s m :
  detect_landmark first i s m =
  (landmark_at s m,
   (if target_hit s m
    then set_currentPhase (match landmark_at s m with
                           | Some d => phase_of d | None => currentPhase m end)
           (set_wasTriggered true (set_samplesSinceTrigger 0 m))
    else set_currentPhase (match landmark_at s m with
                           | Some d => phase_of d | None => currentPhase m end) m),
   (if target_hit s m then [trigger_on first i (outputLine m)] else [])).
Proof.
  unfold target_hit, landmark_at, landmark_table, trigger_on. unfold_proc.
  destruct m as [sst p act wt dt ph ch ol gl lol olc w]; simpl.
  destruct (flt s p && fgt s fzero && negb (PhaseType_eqb ph FALLING_POS)) eqn:B1;
  [| destruct (flt s fzero && fge p fzero && negb (PhaseType_eqb ph FALLING_NEG)) eqn:B2;
   [| destruct (fgt s p && flt s fzero && negb (PhaseType_eqb ph RISING_NEG)) eqn:B3;
    [| destruct (fgt s fzero && fle p fzero && negb (PhaseType_eqb ph RISING_POS)) eqn:B4]]];
  destruct dt; reflexivity.
Qed.

Lemma target_hit_iff s m :
  target_hit s m = true <-> landmark_at s m = Some (detectorType m).
Proof.
  unfold target_hit. destruct (landmark_at s m) as [d |]; [| split; discriminate].
  destruct (DetectorType_eqb_spec (detectorType m) d) as [-> | Hne]; split; congruence.
Qed.

(** A target match on a held pulse: the landmark branch emits a TRIGGER_ON
    and leaves the counter at 0; the sample emits no TRIGGER_OFF. *)
Lemma retrigger_step first i s m :
  wasTriggered m = true ->
  value_of (detect_landmark first i s m) = Some (detectorType m) ->
  emitted (detect_landmark first i s m) = [trigger_on first i (outputLine m)]
  /\ samplesSinceTrigger (state_after (detect_landmark first i s m)) = 0
  /\ wasTriggered (state_after (detect_landmark first i s m)) = true
  /\ filter (is_kind TRIGGER_OFF) (emitted (process_sample first i s m)) = [].
Proof.
  intros _ Hv. rewrite detect_landmark_value in Hv. apply target_hit_iff in Hv.
  rewrite detect_landmark_eq, process_sample_eq.
  unfold emitted, state_after, step_events. cbn [fst snd].
  rewrite (target_hit_not_timed_out _ _ Hv), Hv.
  repeat split. now destruct (outputLineChanged m).
Qed.

(** C9: in a run of contiguous blocks during which the detector stays
    active, a TRIGGER_ON at sample [K2] that follows a TRIGGER_ON at [K1]
    by at most 2001 samples is emitted although the pulse is still held:
    no TRIGGER_OFF lies between them, nor within 2000 samples after [K2],
    and the timeout TRIGGER_OFF comes 2001 samples after [K2] (when no
    further TRIGGER_ON intervenes), not 2001 samples after [K1].  At the
    sample of a re-trigger the landmark branch emits the on-event and
    resets [samplesSinceTrigger] to 0. *)
Theorem C9_retrigger :
  forall (bs : list Block) (F : Z) (m : PhaseDetectorSettings) (K1 K2 L : Z),
    contiguous F bs ->
    stays_detecting bs m ->
    let evs := map event (emitted (run (blocks bs) m)) in
    In (ttl_on K1 L) evs ->
    In (ttl_on K2 L) evs ->
    K1 < K2 <= K1 + 2001 ->
    (forall K', K2 < K' <= K2 + 2001 -> ~ In (ttl_on K' L) evs) ->
    K2 + 2001 < F + total_samples bs ->
    (forall K', K1 <= K' <= K2 + 2000 -> ~ In (ttl_off K' L) evs)
    /\ In (ttl_off (K2 + 2001) L) evs
    /\ (forall first i s m',
          wasTriggered m' = true ->
          value_of (detect_landmark first i s m') = Some (detectorType m') ->
          emitted (detect_landmark first i s m') = [trigger_on first i (outputLine m')]
          /\ samplesSinceTrigger (state_after (detect_landmark first i s m')) = 0
          /\ filter (is_kind TRIGGER_OFF) (emitted (process_sample first i s m')) = []).
Proof.
  intros bs F m K1 K2 L Hc Hs evs Hon1 Hon2 HK Hno Hlen. subst evs.
  destruct (run_flatten bs F m m (same_detector_refl m) Hc Hs) as [He _].
  rewrite He in *. clear He.
  set (l := run_samples bs m) in *.
  apply feed_on_in in Hon1. apply feed_on_in in Hon2.
  split; [| split].
  - intros K' HK' Hoff. apply feed_off_in in Hoff.
    destruct (Z.le_gt_cases K' (K1 + 2000)) as [Hlo | Hhi].
    + apply (feed_on_holds F l 0 m (K1 - F) L _ Hon1 Hoff); [reflexivity |].
      cbn [offset trigger_off]. lia.
    + apply (feed_on_holds F l 0 m (K2 - F) L _ Hon2 Hoff); [reflexivity |].
      cbn [offset trigger_off]. lia.
  - apply feed_off_in.
    replace (K2 + 2001 - F) with (K2 - F + 2001) by lia.
    apply feed_on_then_off; [exact Hon2 | |].
    + intros k' Hk Hin. apply (Hno (F + k')); [lia |].
      apply feed_on_in. now replace (F + k' - F) with k' by lia.
    + unfold l. rewrite run_samples_length. lia.
  - intros first i s m' Hw Hv.
    destruct (retrigger_step first i s m' Hw Hv) as (H1 & H2 & _ & H4). auto.
Qed.

Lemma retrigger_run_events :
  map event (emitted (run (blocks retrigger_run) (scenario_settings 0 0 (-1) 0 false 0)))
  = [ttl_on 1 3; ttl_on 5 3; ttl_off 2006 3].
Proof. vm_compute. reflexivity. Qed.

Lemma retrigger_run_facts (evs : list TTLEvent) :
  evs = [ttl_on 1 3; ttl_on 5 3; ttl_off 2006 3] ->
  In (ttl_on 1 3) evs /\ In (ttl_on 5 3) evs
  /\ (forall K', 5 < K' <= 5 + 2001 -> ~ In (ttl_on K' 3) evs).
Proof.
  intros ->. split; [now left |]. split; [right; now left |].
  intros K' HK' [E | [E | [E | []]]]; inversion E; lia.
Qed.

Lemma retrigger_run_gap : 1 < 5 <= 1 + 2001.
Proof. lia. Qed.

Lemma C9_retrigger_witness :
  let m := scenario_settings 0 0 (-1) 0 false 0 in
  let evs := map event (emitted (run (blocks retrigger_run) m)) in
  contiguous 0 retrigger_run /\ stays_detecting retrigger_run m
  /\ evs = [ttl_on 1 3; ttl_on 5 3; ttl_off 2006 3]
  /\ (forall K', 1 <= K' <= 5 + 2000 -> ~ In (ttl_off K' 3) evs)
  /\ In (ttl_off (5 + 2001) 3) evs.
Proof.
  intros m evs.
  assert (Hc : contiguous 0 retrigger_run) by (repeat split).
  assert (Hs : stays_detecting retrigger_run m) by (vm_compute; repeat split).
  assert (Hlen : 5 + 2001 < 0 + total_samples retrigger_run) by (vm_compute; reflexivity).
  pose proof retrigger_run_events as Hev.
  destruct (retrigger_run_facts _ Hev) as (Hon1 & Hon2 & Hno).
  destruct (C9_retrigger retrigger_run 0 m 1 5 3 Hc Hs Hon1 Hon2
              retrigger_run_gap Hno Hlen)
    as (Hhold & Hoff & _).
  exact (conj Hc (conj Hs (conj Hev (conj Hhold Hoff)))).
Defined.

(** ** C6: no landmark is detected twice in a row *)

Lemma landmark_trace_eq buf first count : forall start m,
  landmark_trace buf first count start m
  = landmarks_of (block_samples buf (triggerChannel m) count start) m.
Proof.
  induction count as [| count IH]; intros start m; [reflexivity |].
  cbn [landmark_trace block_samples seq map landmarks_of].
  rewrite detect_landmark_value, process_sample_eq, IH. reflexivity.
Qed.

(** Each branch of the chain is guarded by the phase it would store. *)
Lemma landmark_at_fresh s m d :
  landmark_at s m = Some d -> currentPhase m <> phase_of d.
Proof.
  unfold landmark_at, landmark_table.
  destruct (currentPhase m);
    repeat match goal with
      | |- context [if ?c then _ else _] => destruct c eqn:?
      end;
    intros E; inversion E; subst; cbn;
    try discriminate;
    repeat match goal with
      | H : _ && _ = true |- _ => apply andb_prop in H; destruct H
      end; discriminate.
Qed.

Lemma step_state_phase s m :
  currentPhase (step_state s m)
  = match landmark_at s m with Some d => phase_of d | None => currentPhase m end.
Proof. reflexivity. Qed.

Lemma phase_of_inj d d' : phase_of d = phase_of d' -> d = d'.
Proof. destruct d, d'; cbn; congruence. Qed.

Lemma landmarks_head l : forall m d,
  hd_error (landmarks_of l m) = Some d -> currentPhase m <> phase_of d.
Proof.
  induction l as [| s l IH]; intros m d; cbn [landmarks_of]; [discriminate |].
  destruct (landmark_at s m) as [d0 |] eqn:E; cbn [app hd_error].
  - intros H. inversion H; subst. now apply (landmark_at_fresh s).
  - intros H. apply IH in H. rewrite step_state_phase, E in H. exact H.
Qed.

Lemma landmarks_alternating l : forall m, alternating (landmarks_of l m).
Proof.
  induction l as [| s l IH]; intros m; cbn [landmarks_of]; [exact I |].
  destruct (landmark_at s m) as [d0 |] eqn:E; cbn [app]; [| apply IH].
  specialize (IH (step_state s m)).
  pose proof (landmarks_head l (step_state s m)) as Hh.
  destruct (landmarks_of l (step_state s m)) as [| y t]; [exact I |].
  split; [| exact IH].
  specialize (Hh y eq_refl). rewrite step_state_phase, E in Hh.
  intros ->. now apply Hh.
Qed.

Lemma alternating_constant d l :
  alternating l -> Forall (eq d) l -> (length l <= 1)%nat.
Proof.
  destruct l as [| x [| y t]]; cbn; intros Ha Hf; try lia.
  destruct Ha as [Hne _]. inversion Hf as [| ? ? Hx Hf']; subst.
  inversion Hf' as [| ? ? Hy _]; subst. congruence.
Qed.

Lemma last_cons {A} (x : A) l : forall d, last (x :: l) d = last l x.
Proof.
  revert x. induction l as [| y l IH]; intros x d; [reflexivity |].
  change (last (x :: y :: l) d) with (last (y :: l) d).
  rewrite (IH y d). symmetry. apply (IH y x).
Qed.

Lemma feed_phase first l : forall i m,
  currentPhase (fst (feed first i l m))
  = last (map phase_of (landmarks_of l m)) (currentPhase m).
Proof.
  induction l as [| s l IH]; intros i m; cbn [feed fst landmarks_of]; [reflexivity |].
  rewrite IH, step_state_phase.
  destruct (landmark_at s m) as [d0 |]; cbn [app map]; [| reflexivity].
  now rewrite last_cons.
Qed.

Lemma target_hit_landmark s m :
  target_hit s m = true -> exists d, landmark_at s m = Some d.
Proof. intros H. apply target_hit_iff in H. eauto. Qed.

Lemma step_events_ons first i s m :
  filter (is_kind TRIGGER_ON) (step_events first i s m)
  = if target_hit s m then [trigger_on first i (outputLine m)] else [].
Proof.
  unfold step_events.
  destruct (target_hit s m), (timed_out s m), (outputLineChanged m); reflexivity.
Qed.

Lemma feed_ons_bound first l : forall i m,
  (length (filter (is_kind TRIGGER_ON) (snd (feed first i l m)))
   <= length (landmarks_of l m))%nat.
Proof.
  induction l as [| s l IH]; intros i m; cbn [feed snd landmarks_of]; [cbn; lia |].
  rewrite filter_app, !length_app, step_events_ons.
  specialize (IH (i + 1) (step_state s m)).
  destruct (target_hit s m) eqn:Hh.
  - destruct (target_hit_landmark _ _ Hh) as [d ->]. cbn [length]. lia.
  - cbn [length]. lia.
Qed.

(** C6: along the sample loop, the first landmark detected is not the one
    that set the phase the loop started in, and no landmark is detected
    twice in a row: while [currentPhase] holds the phase a landmark stored,
    that landmark's branch is not taken.  Hence a loop in which only one
    landmark type is ever detected detects it once and emits at most one
    TRIGGER_ON.  [currentPhase] changes only at a detection, to a phase
    different from the one held: at the end of the loop it is the phase
    of the last landmark detected, or the initial one if there was none. *)
Theorem C6_no_redetection :
  forall (buf : AudioBuffer) (first : Z) (count start : nat)
         (m : PhaseDetectorSettings),
    let tr := landmark_trace buf first count start m in
    let r := sample_loop buf first count start m in
    (forall d, hd_error tr = Some d -> currentPhase m <> phase_of d)
    /\ alternating tr
    /\ (forall d, Forall (eq d) tr ->
          (length tr <= 1)%nat
          /\ (length (filter (is_kind TRIGGER_ON) (emitted r)) <= 1)%nat)
    /\ currentPhase (state_after r) = last (map phase_of tr) (currentPhase m)
    /\ (forall i s m',
          match value_of (detect_landmark first i s m') with
          | Some d =>
              currentPhase m' <> phase_of d
              /\ currentPhase (state_after (process_sample first i s m')) = phase_of d
          | None =>
              currentPhase (state_after (process_sample first i s m')) = currentPhase m'
              /\ filter (is_kind TRIGGER_ON) (emitted (process_sample first i s m')) = []
          end).
Proof.
  intros buf first count start m tr r. subst tr r.
  rewrite landmark_trace_eq, sample_loop_eq.
  unfold state_after, emitted. cbn [fst snd].
  set (l := block_samples buf (triggerChannel m) count start).
  split; [apply landmarks_head |].
  split; [apply landmarks_alternating |].
  split; [| split].
  - intros d Hd.
    pose proof (alternating_constant d _ (landmarks_alternating l m) Hd) as H1.
    split; [exact H1 |].
    pose proof (feed_ons_bound first l (Z.of_nat start) m). lia.
  - apply feed_phase.
  - intros i s m'. rewrite detect_landmark_value, process_sample_eq.
    cbn [fst snd]. rewrite step_state_phase, step_events_ons.
    destruct (landmark_at s m') as [d |] eqn:E.
    + split; [now apply (landmark_at_fresh s) | reflexivity].
    + split; [reflexivity |]. unfold target_hit. now rewrite E.
Qed.

Lemma C6_no_redetection_witness :
  let tr := landmark_trace wobble_buffer 0 6 0 wobble_settings in
  let r := sample_loop wobble_buffer 0 6 0 wobble_settings in
  Forall (eq PEAK) tr
  /\ (length tr <= 1)%nat
  /\ (length (filter (is_kind TRIGGER_ON) (emitted r)) <= 1)%nat.
Proof.
  intros tr r.
  assert (Hf : Forall (eq PEAK) tr) by (repeat constructor).
  destruct (C6_no_redetection wobble_buffer 0 6 0 wobble_settings)
    as (_ & _ & Hone & _).
  exact (conj Hf (Hone PEAK Hf)).
Defined.

(** ** C8: the order of the events of a block *)

Lemma StronglySorted_app {A} (R : A -> A -> Prop) l1 l2 :
  StronglySorted R l1 -> StronglySorted R l2 ->
  (forall x y, In x l1 -> In y l2 -> R x y) ->
  StronglySorted R (l1 ++ l2).
Proof.
  induction l1 as [| a l1 IH]; intros H1 H2 H12; [exact H2 |].
  cbn [app]. inversion H1 as [| ? ? Hs Hf]; subst.
  constructor.
  - apply IH; [assumption | assumption |].
    intros x y Hx Hy. apply H12; [now right | assumption].
  - apply Forall_app. split; [assumption |].
    apply Forall_forall. intros y Hy. apply H12; [now left | assumption].
Qed.

Lemma step_events_sorted first i s m :
  StronglySorted emitted_before (step_events first i s m).
Proof.
  unfold step_events, timed_out.
  destruct (target_hit s m), (wasTriggered m), (samplesSinceTrigger m >? 2000),
    (outputLineChanged m); cbn [negb andb app];
    repeat first [apply SSorted_nil | apply SSorted_cons
                 | apply Forall_nil | apply Forall_cons];
    right; split; reflexivity.
Qed.

Lemma step_events_offset first i s m e :
  In e (step_events first i s m) -> offset e = i.
Proof.
  intros H. apply step_events_inv in H.
  destruct H as [[-> _] | [[-> _] | [-> _]]]; reflexivity.
Qed.

Lemma feed_sorted first l : forall i m,
  StronglySorted emitted_before (snd (feed first i l m)).
Proof.
  induction l as [| s l IH]; intros i m; cbn [feed snd]; [constructor |].
  apply StronglySorted_app; [apply step_events_sorted | apply IH |].
  intros x y Hx Hy. left.
  apply step_events_offset in Hx. apply feed_offsets in Hy. lia.
Qed.

Lemma process_result_sorted b m :
  StronglySorted emitted_before (snd (process_result b m)).
Proof.
  unfold process_result.
  destruct (enable_stream b); [| constructor].
  destruct (can_detect (buffer b) (after_inbound b m)); [apply feed_sorted |].
  destruct (must_force_off (after_inbound b m)); cbn [snd]; repeat constructor.
Qed.

Lemma process_result_numbers b m e :
  In e (snd (process_result b m)) ->
  0 <= offset e
  /\ getSampleNumber (event e) = getFirstSampleNumberForBlock b + offset e.
Proof.
  unfold process_result.
  destruct (enable_stream b); [| intros []].
  destruct (can_detect (buffer b) (after_inbound b m)).
  - intros H. split; [apply feed_offsets in H; lia |].
    eapply feed_sample_numbers. exact H.
  - destruct (must_force_off (after_inbound b m)); cbn [snd]; [| intros []].
    intros [<- | []]. cbn. split; [lia | reflexivity].
Qed.

Lemma block_samples_ext buf buf' ch count : forall start,
  (forall i, (start <= i < start + count)%nat ->
     getReadPointer buf' ch i = getReadPointer buf ch i) ->
  block_samples buf' ch count start = block_samples buf ch count start.
Proof.
  unfold block_samples.
  induction count as [| count IH]; intros start H; [reflexivity |].
  cbn [seq map]. rewrite H by lia. f_equal. apply IH. intros i Hi. apply H. lia.
Qed.

Lemma process_same_input b b' m :
  same_input (triggerChannel m) b b' -> process b' m = process b m.
Proof.
  intros (En & Hin & Hf & Hn & Hc & Hs).
  rewrite !process_eq. unfold process_result, after_inbound, samples_of, can_detect.
  rewrite En, Hin, Hf, Hn, Hc.
  set (m0 := fold_left _ (inbound b) m).
  assert (Hch : triggerChannel m0 = triggerChannel m) by apply (inbound_detector (inbound b) m).
  rewrite (block_samples_ext (buffer b) (buffer b') (triggerChannel m0)).
  - reflexivity.
  - intros i Hi. rewrite Hch. apply Hs. lia.
Qed.

(** C8: the events of a block are emitted in increasing order of sample
    offset, and those of one offset in the order TRIGGER_ON, timeout
    TRIGGER_OFF, LINE_CLEAR; each event carries the sample number of its
    offset.  The state and the events are a function of the state before,
    the inbound TTL events and the samples of the trigger channel: two
    blocks that agree on these give the same result. *)
Theorem C8_emission_order :
  forall (b b' : Block) (m : PhaseDetectorSettings),
    same_input (triggerChannel m) b b' ->
    StronglySorted emitted_before (emitted (process b m))
    /\ (forall e, In e (emitted (process b m)) ->
          0 <= offset e
          /\ getSampleNumber (event e) = getFirstSampleNumberForBlock b + offset e)
    /\ process b' m = process b m.
Proof.
  intros b b' m Hsame. rewrite process_emitted.
  split; [apply process_result_sorted |].
  split; [apply process_result_numbers |].
  now apply process_same_input.
Qed.

Lemma C8_emission_order_witness :
  let b := block_of 1 0 scenario_samples in
  let b' := block_of 1 0 (scenario_samples ++ [f_1_0]) in
  let b'' := mkBlock true [] (buffer b') 0 6 in
  let m := scenario_settings 0 0 (-1) 7 true 0 in
  same_input (triggerChannel m) b b''
  /\ StronglySorted emitted_before (emitted (process b m))
  /\ emitted (process b m) = [line_clear 0 0 7; trigger_on 0 4 3]
  /\ process b'' m = process b m.
Proof.
  intros b b' b'' m.
  assert (Hs : same_input (triggerChannel m) b b'').
  { repeat split. intros i Hi.
    do 6 (destruct i as [| i]; [reflexivity |]). cbn in Hi. lia. }
  destruct (C8_emission_order b b'' m Hs) as (Hsorted & _ & Hsame).
  exact (conj Hs (conj Hsorted (conj eq_refl Hsame))).
Defined.

(** ** C5, C10: clearing the retired output line *)

Lemma step_events_clears first i s m :
  line_clears (step_events first i s m)
  = if outputLineChanged m then [line_clear first i (lastOutputLine m)] else [].
Proof.
  unfold line_clears, step_events.
  destruct (target_hit s m), (timed_out s m), (outputLineChanged m); reflexivity.
Qed.

Lemma feed_clears first l : forall i m,
  line_clears (snd (feed first i l m))
  = match l with
    | [] => []
    | _ :: _ => if outputLineChanged m then [line_clear first i (lastOutputLine m)] else []
    end
  /\ outputLineChanged (fst (feed first i l m))
     = match l with [] => outputLineChanged m | _ :: _ => false end.
Proof.
  induction l as [| s l IH]; intros i m; cbn [feed fst snd]; [auto |].
  destruct (IH (i + 1) (step_state s m)) as [IHe IHs].
  unfold line_clears in *. rewrite filter_app. fold (line_clears (step_events first i s m)).
  rewrite step_events_clears, IHe, IHs.
  cbn [step_state outputLineChanged].
  split; [| now destruct l].
  destruct l; now rewrite app_nil_r.
Qed.

Lemma samples_of_nil b m :
  samples_of b m = [] <-> getNumSamplesInBlock b = O.
Proof.
  pose proof (block_samples_length (buffer b) (triggerChannel m) (getNumSamplesInBlock b) 0) as H.
  fold (samples_of b m) in H. split; intros E.
  - rewrite E in H. cbn in H. congruence.
  - rewrite E in H. now destruct (samples_of b m).
Qed.

(** The line clears of one block. *)
Lemma process_clears b m :
  line_clears (emitted (process b m))
  = (if loop_runs b m && outputLineChanged m
     then [line_clear (getFirstSampleNumberForBlock b) 0 (lastOutputLine m)] else [])
  /\ outputLineChanged (state_after (process b m))
     = (if loop_runs b m then false else outputLineChanged m)
  /\ lastOutputLine (state_after (process b m)) = lastOutputLine m.
Proof.
  rewrite process_emitted, process_state. unfold process_result, loop_runs.
  pose proof (after_inbound_detector b m) as (_ & _ & _ & _ & _ & _ & _ & _ & Hl & Hc).
  set (m0 := after_inbound b m) in *.
  destruct (enable_stream b); cbn [andb fst snd]; [| auto].
  destruct (can_detect (buffer b) m0); cbn [andb].
  - destruct (feed_clears (getFirstSampleNumberForBlock b) (samples_of b m0) 0 m0)
      as [He Hs].
    pose proof (feed_config (getFirstSampleNumberForBlock b) (samples_of b m0) 0 m0)
      as (_ & _ & _ & _ & _ & Hlo & _).
    rewrite He, Hs, Hlo, Hl, Hc.
    pose proof (samples_of_nil b m0) as Hn.
    destruct (samples_of b m0) as [| s l].
    + rewrite (proj1 Hn eq_refl). cbn. auto.
    + destruct (Nat.eqb_spec (getNumSamplesInBlock b) 0) as [E | _].
      * apply Hn in E. discriminate.
      * cbn [negb andb]. auto.
  - destruct (must_force_off m0); cbn [fst snd]; auto.
Qed.

Lemma reconfigure_keeps param m :
  keeps_output_line (Reconfigure param) = true ->
  outputLineChanged (parameterValueChanged param m) = outputLineChanged m
  /\ lastOutputLine (parameterValueChanged param m) = lastOutputLine m.
Proof.
  destruct param as [v | arr g | v | v |]; cbn; try discriminate; auto.
  - now destruct arr.
  - now destruct (v >=? 0).
Qed.

Lemma perform_clears a m :
  keeps_output_line a = true ->
  line_clears (emitted (perform a m))
  = match a with
    | ProcessBlock b =>
        if loop_runs b m && outputLineChanged m
        then [line_clear (getFirstSampleNumberForBlock b) 0 (lastOutputLine m)] else []
    | Reconfigure _ => []
    end
  /\ outputLineChanged (state_after (perform a m))
     = match a with
       | ProcessBlock b => if loop_runs b m then false else outputLineChanged m
       | Reconfigure _ => outputLineChanged m
       end
  /\ lastOutputLine (state_after (perform a m)) = lastOutputLine m.
Proof.
  destruct a as [param | b]; intros Hk; cbn [perform].
  - destruct (reconfigure_keeps param m Hk) as [H1 H2]. auto.
  - apply process_clears.
Qed.

Lemma run_clears_cons a rest m :
  line_clears (emitted (run (a :: rest) m))
  = line_clears (emitted (perform a m))
    ++ line_clears (emitted (run rest (state_after (perform a m)))).
Proof. rewrite run_cons_emitted. apply filter_app. Qed.

(** With no clear pending and no change of the output line, a run emits
    no LINE_CLEAR. *)
Lemma run_no_clear acts : forall m,
  forallb keeps_output_line acts = true ->
  outputLineChanged m = false ->
  line_clears (emitted (run acts m)) = [].
Proof.
  induction acts as [| a acts IH]; intros m Hk Hc; [reflexivity |].
  cbn [forallb] in Hk. apply andb_prop in Hk. destruct Hk as [Ha Hk].
  rewrite run_clears_cons.
  destruct (perform_clears a m Ha) as (He & Hs & _).
  rewrite He, IH; [| assumption |].
  - destruct a; [reflexivity |]. rewrite Hc, andb_false_r. reflexivity.
  - rewrite Hs. destruct a; [assumption |]. now destruct (loop_runs b m).
Qed.

(** With no change of the output line, a run emits at most one LINE_CLEAR,
    at the first sample of a block, on the retired line. *)
Lemma run_pending_clear acts : forall m,
  forallb keeps_output_line acts = true ->
  (length (line_clears (emitted (run acts m))) <= 1)%nat
  /\ (forall e, In e (line_clears (emitted (run acts m))) ->
        getLine (event e) = lastOutputLine m /\ offset e = 0).
Proof.
  induction acts as [| a acts IH]; intros m Hk.
  - cbn. split; [lia | intros e []].
  - cbn [forallb] in Hk. apply andb_prop in Hk. destruct Hk as [Ha Hk].
    rewrite run_clears_cons.
    destruct (perform_clears a m Ha) as (He & Hs & Hl).
    destruct (IH (state_after (perform a m)) Hk) as [IHn IHe].
    rewrite Hl in IHe. rewrite He.
    destruct a as [param | b]; [exact (conj IHn IHe) |].
    destruct (loop_runs b m) eqn:Hr; cbn [andb]; [| exact (conj IHn IHe)].
    rewrite (run_no_clear acts _ Hk) by (now rewrite Hs).
    destruct (outputLineChanged m); cbn; split; try lia; try (intros e []; fail).
    intros e [<- | []]. auto.
Qed.

Lemma in_line_clears e evs :
  In e (line_clears evs) <-> In e evs /\ kind e = LINE_CLEAR.
Proof.
  unfold line_clears. rewrite filter_In. unfold is_kind.
  destruct (EventKind_eqb_spec (kind e) LINE_CLEAR); intuition congruence.
Qed.

(** C5 (as amended): after one reconfiguration of the output line, and
    until the next one, at most one LINE_CLEAR is emitted, at the first
    sample of a block and on the old line.  It is emitted by the next
    processed block if the sample loop runs on it (stream enabled,
    detection guard satisfied, at least one sample), and then by no later
    block; a block on which the loop does not run emits no LINE_CLEAR and
    leaves the clear pending.  The sample that emits it clears the flag,
    whatever else that sample emits. *)
Theorem C5_line_clear_amended :
  forall (m : PhaseDetectorSettings) (v : Z) (b : Block) (rest : list Action),
    forallb keeps_output_line rest = true ->
    let m' := parameterValueChanged (ttl_out v) m in
    let evs := emitted (run (ProcessBlock b :: rest) m') in
    (loop_runs b m' = true ->
       line_clears evs = [line_clear (getFirstSampleNumberForBlock b) 0 (outputLine m)]
       /\ line_clears (emitted (process b m'))
          = [line_clear (getFirstSampleNumberForBlock b) 0 (outputLine m)]
       /\ outputLineChanged (state_after (process b m')) = false)
    /\ (loop_runs b m' = false ->
          line_clears (emitted (process b m')) = []
          /\ outputLineChanged (state_after (process b m')) = true
          /\ lastOutputLine (state_after (process b m')) = outputLine m)
    /\ (length (line_clears evs) <= 1)%nat
    /\ (forall e, In e evs -> kind e = LINE_CLEAR ->
          getLine (event e) = outputLine m /\ offset e = 0)
    /\ (forall first i s m1, outputLineChanged m1 = true ->
          line_clears (emitted (process_sample first i s m1))
          = [line_clear first i (lastOutputLine m1)]
          /\ outputLineChanged (state_after (process_sample first i s m1)) = false).
Proof.
  intros m v b rest Hk m' evs.
  assert (Hflag : outputLineChanged m' = true) by reflexivity.
  assert (Hold : lastOutputLine m' = outputLine m) by reflexivity.
  destruct (process_clears b m') as (He & Hs & Hl).
  rewrite Hflag, Hold in He. rewrite Hflag in Hs. rewrite Hold in Hl.
  assert (Hk' : forallb keeps_output_line (ProcessBlock b :: rest) = true) by exact Hk.
  destruct (run_pending_clear _ m' Hk') as [Hn Hline]. rewrite Hold in Hline.
  split; [| split; [| split; [| split]]].
  - intros Hr. rewrite Hr in He, Hs. cbn [andb] in He.
    split; [| auto]. subst evs. rewrite run_clears_cons. cbn [perform].
    rewrite He, (run_no_clear rest _ Hk); [reflexivity | exact Hs].
  - intros Hr. rewrite Hr in He, Hs. auto.
  - exact Hn.
  - intros e He' Hkind. apply Hline. apply in_line_clears. auto.
  - intros first i s m1 H1. rewrite process_sample_eq.
    unfold emitted, state_after. cbn [fst snd].
    rewrite step_events_clears, H1. auto.
Qed.

Lemma C5_line_clear_amended_witness :
  let m' := parameterValueChanged (ttl_out 3) PhaseDetectorSettings_new in
  let b := block_of 1 0 scenario_samples in
  let rest := [ProcessBlock (block_of 1 6 scenario_samples)] in
  forallb keeps_output_line rest = true
  /\ loop_runs b m' = true
  /\ line_clears (emitted (run (ProcessBlock b :: rest) m')) = [line_clear 0 0 0].
Proof.
  intros m' b rest.
  destruct (C5_line_clear_amended PhaseDetectorSettings_new 3 b rest eq_refl)
    as (Hfire & _).
  destruct (Hfire eq_refl) as (Hrun & _).
  exact (conj eq_refl (conj eq_refl Hrun)).
Defined.

(** C5 fails as stated: the output line is changed while the gate is
    closed; the next processed block emits no LINE_CLEAR and leaves the
    clear pending; it is emitted by a later block, once the gate line is
    disabled. *)
Lemma C5_counterexample :
  let m' := parameterValueChanged (ttl_out 3) gate_closed in
  let b := block_of 1 0 [f_1_0] in
  let later := block_of 1 1 [f_1_0] in
  enable_stream b = true
  /\ outputLineChanged m' = true
  /\ line_clears (emitted (process b m')) = []
  /\ outputLineChanged (state_after (process b m')) = true
  /\ emitted (run [ProcessBlock b; Reconfigure (gate_line (-1)); ProcessBlock later] m')
     = [line_clear 1 0 0].
Proof. vm_compute. repeat split. Qed.

(** C10: when the output line is changed from A to B and then from B to C
    with no block processed in between, [lastOutputLine] holds B; until the
    next change at most one LINE_CLEAR is emitted, and it is on line B:
    line A, if different from B, receives none. *)
Theorem C10_double_reconfiguration :
  forall (m : PhaseDetectorSettings) (B C : Z) (acts : list Action),
    forallb keeps_output_line acts = true ->
    let twice := [Reconfigure (ttl_out B); Reconfigure (ttl_out C)] in
    let m2 := state_after (run twice m) in
    let evs := emitted (run (twice ++ acts) m) in
    lastOutputLine m2 = B
    /\ outputLine m2 = C
    /\ outputLineChanged m2 = true
    /\ (length (line_clears evs) <= 1)%nat
    /\ (forall e, In e evs -> kind e = LINE_CLEAR -> getLine (event e) = B)
    /\ (outputLine m <> B ->
        forall e, In e evs -> kind e = LINE_CLEAR -> getLine (event e) <> outputLine m).
Proof.
  intros m B C acts Hk twice m2 evs.
  assert (Hevs : evs = emitted (run acts m2)).
  { subst evs m2 twice. cbn [app]. rewrite !run_cons_emitted, !run_cons_state.
    reflexivity. }
  assert (Hl : lastOutputLine m2 = B) by reflexivity.
  destruct (run_pending_clear acts m2 Hk) as [Hn Hline].
  rewrite Hl in Hline. rewrite <- Hevs in Hn, Hline.
  assert (HB : forall e, In e evs -> kind e = LINE_CLEAR -> getLine (event e) = B).
  { intros e He Hkind. apply Hline. apply in_line_clears. auto. }
  repeat split; try assumption.
  intros HA e He Hkind. rewrite (HB e He Hkind). congruence.
Qed.

Lemma C10_double_reconfiguration_witness :
  let acts := [ProcessBlock (block_of 1 0 scenario_samples);
               ProcessBlock (block_of 1 6 scenario_samples)] in
  let twice := [Reconfigure (ttl_out 1); Reconfigure (ttl_out 2)] in
  let evs := emitted (run (twice ++ acts) PhaseDetectorSettings_new) in
  forallb keeps_output_line acts = true
  /\ line_clears evs = [line_clear 0 0 1]
  /\ (forall e, In e evs -> kind e = LINE_CLEAR -> getLine (event e) = 1).
Proof.
  intros acts twice evs.
  destruct (C10_double_reconfiguration PhaseDetectorSettings_new 1 2 acts eq_refl)
    as (_ & _ & _ & _ & HB & _).
  exact (conj eq_refl (conj eq_refl HB)).
Defined.

(** ** C3: the pulse-width ceiling *)




















(* ================================================================== *)
(** * Further properties of the detector *)

(** ** updateSettings *)

Lemma updateSettings_fields p m :
  let m' := updateSettings p m in
  lastTTLWord m' = 0
  /\ gateLine m' = gate_line_value p
  /\ isActive m' = (gate_line_value p <? 0)
  /\ detectorType m' = phase_value p
  /\ outputLine m' = ttl_out_value p
  /\ lastOutputLine m' = outputLine m
  /\ outputLineChanged m' = true
  /\ same_memory m m'.
Proof.
  unfold updateSettings. cbn [parameterValueChanged].
  destruct (channel_array p) as [| c cs];
    destruct (Z.geb_spec (gate_line_value p) 0);
    destruct (Z.ltb_spec (gate_line_value p) 0); try lia;
    cbn; rewrite ?Z.land_0_l; repeat split.
Qed.

(** X1: after [updateSettings] the TTL word is 0, so a stream with a gate
    line (a value >= 0) is inactive and a stream without one is active,
    whatever the gate state was before; the gate of a gated stream then
    follows the state of the next TTL event on the gate line and ignores
    events on other lines. *)
Theorem X1_updateSettings_gate :
  forall (p : StreamParameters) (m : PhaseDetectorSettings) (ev : TTLIn),
    let m' := updateSettings p m in
    lastTTLWord m' = 0
    /\ isActive m' = (gate_line_value p <? 0)
    /\ (0 <= gate_line_value p -> inLine ev = gate_line_value p ->
        isActive (handleTTLEvent ev m') = inState ev)
    /\ (inLine ev <> gate_line_value p ->
        isActive (handleTTLEvent ev m') = (gate_line_value p <? 0)).
Proof.
  intros p m ev m'.
  destruct (updateSettings_fields p m) as (Hw & Hg & Ha & _).
  fold m' in Hw, Hg, Ha.
  split; [exact Hw |]. split; [exact Ha |].
  unfold handleTTLEvent. cbn [set_lastTTLWord gateLine]. rewrite Hg.
  split.
  - intros Hge Hl.
    destruct (Z.gtb_spec (gate_line_value p) (-1)); [| lia].
    destruct (Z.eqb_spec (gate_line_value p) (inLine ev)); [reflexivity | congruence].
  - intros Hne.
    destruct (gate_line_value p >? -1); [| exact Ha].
    destruct (Z.eqb_spec (gate_line_value p) (inLine ev)); [congruence | exact Ha].
Qed.

(** X2: [updateSettings] keeps the detector's memory (last sample, phase,
    pulse state and counter) and always leaves a clear pending for the
    output line in use before it, also when the line is unchanged: the
    next block on which the sample loop runs emits exactly one LINE_CLEAR,
    at its first sample, on that line. *)
Theorem X2_updateSettings_clear :
  forall (p : StreamParameters) (m : PhaseDetectorSettings) (b : Block),
    loop_runs b (updateSettings p m) = true ->
    same_memory m (updateSettings p m)
    /\ line_clears (emitted (process b (updateSettings p m)))
       = [line_clear (getFirstSampleNumberForBlock b) 0 (outputLine m)]
    /\ outputLineChanged (state_after (process b (updateSettings p m))) = false.
Proof.
  intros p m b Hr.
  destruct (updateSettings_fields p m) as (_ & _ & _ & _ & _ & Hl & Hc & Hm).
  destruct (process_clears b (updateSettings p m)) as (He & Hs & _).
  rewrite Hr, Hc, Hl in He. rewrite Hr in Hs.
  auto.
Qed.

Lemma X2_updateSettings_clear_witness :
  let p := mkStreamParameters TROUGH [0] (fun i => i) 0 (-1) in
  let b := block_of 1 0 scenario_samples in
  loop_runs b (updateSettings p PhaseDetectorSettings_new) = true
  /\ outputLine (updateSettings p PhaseDetectorSettings_new)
     = outputLine PhaseDetectorSettings_new
  /\ line_clears (emitted (process b (updateSettings p PhaseDetectorSettings_new)))
     = [line_clear 0 0 0].
Proof.
  intros p b.
  destruct (X2_updateSettings_clear p PhaseDetectorSettings_new b eq_refl)
    as (_ & H & _).
  exact (conj eq_refl (conj eq_refl H)).
Defined.

Lemma X1_updateSettings_gate_witness :
  let p := mkStreamParameters PEAK [] (fun i => i) 0 2 in
  let m' := updateSettings p (set_isActive true (set_lastTTLWord 4 PhaseDetectorSettings_new)) in
  isActive m' = false
  /\ isActive (handleTTLEvent (mkTTLIn 2 true 4) m') = true
  /\ isActive (handleTTLEvent (mkTTLIn 5 true 32) m') = false.
Proof.
  intros p m'.
  pose proof (X1_updateSettings_gate p
    (set_isActive true (set_lastTTLWord 4 PhaseDetectorSettings_new))) as H.
  destruct (H (mkTTLIn 2 true 4)) as (_ & Ha & Hon & _).
  destruct (H (mkTTLIn 5 true 32)) as (_ & _ & _ & Hother).
  split; [exact Ha |].
  split; [apply Hon; [cbn; lia | reflexivity] | apply Hother; cbn; lia].
Defined.

(** ** The gate follows the TTL word *)

Lemma handleTTLEvent_coherent ev m :
  gate_coherent m -> reports_change (lastTTLWord m) ev ->
  gate_coherent (handleTTLEvent ev m)
  /\ lastTTLWord (handleTTLEvent ev m) = inWord ev
  /\ gateLine (handleTTLEvent ev m) = gateLine m.
Proof.
  intros Hc (_ & Hbit & Hrest). unfold handleTTLEvent, gate_coherent in *.
  cbn [set_lastTTLWord gateLine].
  destruct (Z.gtb_spec (gateLine m) (-1)) as [Hg | Hg].
  - destruct (Z.eqb_spec (gateLine m) (inLine ev)) as [E | E]; cbn.
    + repeat split. intros _. rewrite E. now rewrite Hbit.
    + repeat split. intros Hge. rewrite Hrest by assumption. now apply Hc.
  - cbn. repeat split. intros Hge. lia.
Qed.

Lemma inbound_coherent evs : forall m,
  gate_coherent m -> report_changes (lastTTLWord m) evs ->
  let m' := fold_left (fun m ev => handleTTLEvent ev m) evs m in
  gate_coherent m'
  /\ lastTTLWord m' = word_after (lastTTLWord m) evs
  /\ gateLine m' = gateLine m.
Proof.
  induction evs as [| ev evs IH]; intros m Hc Hr; cbn [fold_left word_after].
  - auto.
  - destruct Hr as [Hev Hr].
    destruct (handleTTLEvent_coherent ev m Hc Hev) as (Hc' & Hw & Hg).
    rewrite <- Hw in Hr.
    destruct (IH (handleTTLEvent ev m) Hc' Hr) as (H1 & H2 & H3).
    cbn zeta in *. rewrite H2, H3, Hw, Hg. unfold word_after. auto.
Qed.

Lemma report_changes_range evs : forall prev,
  uint64_range prev -> report_changes prev evs -> uint64_range (word_after prev evs).
Proof.
  induction evs as [| ev evs IH]; intros prev Hp Hr; [exact Hp |].
  destruct Hr as [(Hu & _) Hr]. cbn [word_after fold_left]. now apply IH.
Qed.

(** The sample loop and the end-of-block check leave the gate alone. *)
Lemma process_gate_fields b m :
  same_config (after_inbound b m) (state_after (process b m)).
Proof.
  rewrite process_state. unfold process_result.
  destruct (enable_stream b); [| apply same_config_refl].
  destruct (can_detect (buffer b) (after_inbound b m)); [apply feed_config |].
  destruct (must_force_off (after_inbound b m)); cbn [fst]; repeat split.
Qed.

Lemma parameterValueChanged_coherent param m :
  gate_line_defined (Reconfigure param) = true ->
  gate_coherent m ->
  gate_coherent (parameterValueChanged param m)
  /\ lastTTLWord (parameterValueChanged param m) = lastTTLWord m.
Proof.
  intros Hd Hc. unfold gate_coherent in *.
  destruct param as [v | arr g | v | v |]; cbn [parameterValueChanged].
  - auto.
  - destruct arr; auto.
  - auto.
  - cbn [gate_line_defined] in Hd. apply Z.ltb_lt in Hd.
    destruct (Z.geb_spec v 0); cbn; (split; [| reflexivity]); intros Hge; [| lia].
    apply gate_bit. lia.
  - auto.
Qed.

(** X3: if the gate state agrees with the gate line's bit of the stored
    TTL word, it still does after any run of reconfigurations and blocks
    in which every gate line selected is below 64 and every inbound TTL
    event reports the change of one line; a change of the gate line
    re-establishes the agreement from the stored word. *)
Theorem X3_gate_follows_word :
  forall (acts : list Action) (m : PhaseDetectorSettings),
    forallb gate_line_defined acts = true ->
    uint64_range (lastTTLWord m) ->
    gate_coherent m ->
    coherent_inputs acts (lastTTLWord m) ->
    gate_coherent (state_after (run acts m))
    /\ uint64_range (lastTTLWord (state_after (run acts m))).
Proof.
  induction acts as [| a acts IH]; intros m Hd Hu Hc Hin.
  - cbn. auto.
  - cbn [forallb] in Hd. apply andb_prop in Hd. destruct Hd as [Ha0 Hd].
    rewrite run_cons_state. destruct a as [param | b]; cbn [perform coherent_inputs] in *.
    + destruct (parameterValueChanged_coherent param m Ha0 Hc) as [Hc' Hw].
      apply IH; unfold state_after; cbn [modify fst snd]; rewrite ?Hw; assumption.
    + destruct Hin as [Hr Hin].
      destruct (inbound_coherent (inbound b) m Hc Hr) as (Hc0 & Hw0 & Hg0).
      cbn zeta in Hc0, Hw0, Hg0. fold (after_inbound b m) in Hc0, Hw0, Hg0.
      destruct (process_gate_fields b m) as (Ha & _ & _ & _ & Hg & _ & Hw).
      set (m1 := state_after (process b m)) in *.
      assert (Hw1 : lastTTLWord m1 = word_after (lastTTLWord m) (inbound b)) by congruence.
      apply IH.
      * exact Hd.
      * rewrite Hw1. now apply report_changes_range.
      * unfold gate_coherent in *. rewrite Ha, Hg, Hw. exact Hc0.
      * now rewrite Hw1.
Qed.

Lemma X3_gate_follows_word_witness :
  let acts := [ProcessBlock (mkBlock true gate_events (buffer_of 1 [f_0_5]) 0 1);
               Reconfigure (gate_line 5);
               ProcessBlock (mkBlock true [mkTTLIn 5 false 4] (buffer_of 1 [f_0_3]) 1 1)] in
  let m := updateSettings plain_parameters PhaseDetectorSettings_new in
  forallb gate_line_defined acts = true
  /\ uint64_range (lastTTLWord m) /\ gate_coherent m
  /\ coherent_inputs acts (lastTTLWord m)
  /\ gateLine (state_after (run acts m)) = 5
  /\ gate_coherent (state_after (run acts m)).
Proof.
  intros acts m.
  assert (Hu : uint64_range (lastTTLWord m)) by (unfold uint64_range; cbn; lia).
  assert (Hc : gate_coherent m) by (unfold gate_coherent; cbn; lia).
  assert (Hin : coherent_inputs acts (lastTTLWord m)).
  { cbn. unfold reports_change, uint64_range. cbn.
    repeat split; try lia;
      intros k Hk; rewrite ?Z.bits_0;
      destruct k as [| k | k]; try reflexivity;
      repeat (destruct k as [k | k |]; try reflexivity; try (cbn in Hk; congruence)). }
  destruct (X3_gate_follows_word acts m eq_refl Hu Hc Hin) as [H _].
  exact (conj eq_refl (conj Hu (conj Hc (conj Hin (conj eq_refl H))))).
Defined.

(** ** The pulse state and the emitted events *)

Lemma pulse_after_app l1 : forall held l2,
  pulse_after held (l1 ++ l2) = pulse_after (pulse_after held l1) l2.
Proof. induction l1 as [| e l1 IH]; intros held l2; cbn; [reflexivity | apply IH]. Qed.

Lemma offs_close_pulses_app l1 : forall held l2,
  offs_close_pulses held l1 -> offs_close_pulses (pulse_after held l1) l2 ->
  offs_close_pulses held (l1 ++ l2).
Proof.
  induction l1 as [| e l1 IH]; intros held l2 H1 H2; cbn [app]; [exact H2 |].
  cbn [offs_close_pulses pulse_after] in *.
  destruct (kind e); [apply IH | destruct H1; split; [| apply IH] | apply IH]; assumption.
Qed.

Lemma step_pulse first i s m :
  wasTriggered (step_state s m) = pulse_after (wasTriggered m) (step_events first i s m)
  /\ offs_close_pulses (wasTriggered m) (step_events first i s m).
Proof.
  unfold step_state, step_events, timed_out. cbn [wasTriggered].
  destruct (target_hit s m), (wasTriggered m), (samplesSinceTrigger m >? 2000),
    (outputLineChanged m); cbn; auto.
Qed.

Lemma feed_pulse first l : forall i m,
  wasTriggered (fst (feed first i l m))
  = pulse_after (wasTriggered m) (snd (feed first i l m))
  /\ offs_close_pulses (wasTriggered m) (snd (feed first i l m)).
Proof.
  induction l as [| s l IH]; intros i m; cbn [feed fst snd]; [cbn; auto |].
  destruct (step_pulse first i s m) as [Hs Ho].
  destruct (IH (i + 1) (step_state s m)) as [IHs IHo].
  rewrite pulse_after_app, <- Hs. split; [exact IHs |].
  apply offs_close_pulses_app; [exact Ho | now rewrite <- Hs].
Qed.

Lemma process_pulse b m :
  wasTriggered (state_after (process b m))
  = pulse_after (wasTriggered m) (emitted (process b m))
  /\ offs_close_pulses (wasTriggered m) (emitted (process b m)).
Proof.
  rewrite process_state, process_emitted. unfold process_result.
  pose proof (after_inbound_detector b m) as (_ & _ & Hw & _).
  set (m0 := after_inbound b m) in *. rewrite <- Hw.
  destruct (enable_stream b); [| cbn; auto].
  destruct (can_detect (buffer b) m0); [apply feed_pulse |].
  destruct (must_force_off m0) eqn:Hf; cbn; [| auto].
  unfold must_force_off in Hf. apply andb_prop in Hf. destruct Hf as [Hf _]. auto.
Qed.

Lemma reconfigure_pulse param m :
  wasTriggered (parameterValueChanged param m) = wasTriggered m.
Proof.
  destruct param as [v | arr g | v | v |]; cbn; try reflexivity.
  - now destruct arr.
  - now destruct (v >=? 0).
Qed.

(** X4: over any run of reconfigurations and blocks, [wasTriggered] is
    the pulse state read off the emitted events: every TRIGGER_OFF is
    emitted while a pulse is held (never two in a row, and never before
    the first TRIGGER_ON when none was held at the start), and at the end
    [wasTriggered] tells whether the last TRIGGER_ON or TRIGGER_OFF was a
    TRIGGER_ON. *)
Theorem X4_pulse_bookkeeping :
  forall (acts : list Action) (m : PhaseDetectorSettings),
    wasTriggered (state_after (run acts m))
    = pulse_after (wasTriggered m) (emitted (run acts m))
    /\ offs_close_pulses (wasTriggered m) (emitted (run acts m)).
Proof.
  induction acts as [| a acts IH]; intros m; [cbn; auto |].
  rewrite run_cons_state, run_cons_emitted, pulse_after_app.
  assert (Ha : wasTriggered (state_after (perform a m))
               = pulse_after (wasTriggered m) (emitted (perform a m))
               /\ offs_close_pulses (wasTriggered m) (emitted (perform a m))).
  { destruct a as [param | b]; [| apply process_pulse].
    cbn. split; [apply reconfigure_pulse | exact I]. }
  destruct Ha as [Hs Ho].
  destruct (IH (state_after (perform a m))) as [IHs IHo].
  rewrite <- Hs. split; [exact IHs |].
  apply offs_close_pulses_app; [exact Ho | now rewrite <- Hs].
Qed.

(** ** The range of the pulse-width counter *)

Lemma step_counter_range s m : counter_range m -> counter_range (step_state s m).
Proof.
  unfold counter_range, step_state. cbn [samplesSinceTrigger]. intros H.
  destruct (target_hit s m); [lia |].
  destruct (wasTriggered m); cbn [andb]; [| exact H].
  destruct (Z.gtb_spec (samplesSinceTrigger m) 2000); cbn [negb]; lia.
Qed.

Lemma feed_counter_range first l : forall i m,
  counter_range m -> counter_range (fst (feed first i l m)).
Proof.
  induction l as [| s l IH]; intros i m H; cbn [feed fst]; [exact H |].
  apply IH. now apply step_counter_range.
Qed.

Lemma process_counter_range b m :
  counter_range m -> counter_range (state_after (process b m)).
Proof.
  intros H. rewrite process_state. unfold process_result.
  pose proof (after_inbound_detector b m) as (Hs & _).
  assert (H0 : counter_range (after_inbound b m)) by (unfold counter_range; now rewrite Hs).
  destruct (enable_stream b); [| exact H0].
  destruct (can_detect (buffer b) (after_inbound b m)); [now apply feed_counter_range |].
  destruct (must_force_off (after_inbound b m)); exact H0.
Qed.

Lemma reconfigure_counter param m :
  samplesSinceTrigger (parameterValueChanged param m) = samplesSinceTrigger m.
Proof.
  destruct param as [v | arr g | v | v |]; cbn; try reflexivity.
  - now destruct arr.
  - now destruct (v >=? 0).
Qed.

(** X5: the pulse-width counter stays within 0 .. 2001 over any run of
    reconfigurations and blocks that starts with it there, as it does
    from the constructor's state: the counter is only ever reset to 0 or
    incremented while at most 2000, so it cannot overflow. *)
Theorem X5_counter_bounded :
  forall (acts : list Action) (m : PhaseDetectorSettings),
    counter_range m -> counter_range (state_after (run acts m)).
Proof.
  induction acts as [| a acts IH]; intros m H; [exact H |].
  rewrite run_cons_state. apply IH.
  destruct a as [param | b]; cbn [perform].
  - unfold counter_range, state_after. cbn [modify fst snd].
    now rewrite reconfigure_counter.
  - now apply process_counter_range.
Qed.

Lemma X5_counter_bounded_witness :
  let acts := [Reconfigure (phase TROUGH); Reconfigure (ttl_out 3);
               ProcessBlock (block_of 1 0 scenario_samples)] in
  counter_range PhaseDetectorSettings_new
  /\ samplesSinceTrigger (state_after (run acts PhaseDetectorSettings_new)) = 2
  /\ counter_range (state_after (run acts PhaseDetectorSettings_new)).
Proof.
  intros acts.
  assert (H0 : counter_range PhaseDetectorSettings_new)
    by (unfold counter_range; cbn; lia).
  exact (conj H0 (conj eq_refl (X5_counter_bounded acts PhaseDetectorSettings_new H0))).
Defined.

(** ** No channel selected *)

Lemma inbound_fields b m :
  triggerChannel (after_inbound b m) = triggerChannel m
  /\ wasTriggered (after_inbound b m) = wasTriggered m
  /\ outputLine (after_inbound b m) = outputLine m
  /\ lastSample (after_inbound b m) = lastSample m
  /\ currentPhase (after_inbound b m) = currentPhase m.
Proof.
  pose proof (after_inbound_detector b m) as (_ & Hl & Hw & _ & Hp & Hc & Ho & _).
  auto.
Qed.

Lemma can_detect_none buf m : triggerChannel m < 0 -> can_detect buf m = false.
Proof. intros H. apply can_detect_false. auto. Qed.

Lemma deselected_run bs : forall m,
  triggerChannel m < 0 ->
  emitted (run (blocks bs) m)
  = match find enable_stream bs with
    | Some b =>
        if wasTriggered m
        then [trigger_off (getFirstSampleNumberForBlock b) 0 (outputLine m)]
        else []
    | None => []
    end
  /\ lastSample (state_after (run (blocks bs) m)) = lastSample m
  /\ currentPhase (state_after (run (blocks bs) m)) = currentPhase m
  /\ wasTriggered (state_after (run (blocks bs) m))
     = match find enable_stream bs with Some _ => false | None => wasTriggered m end.
Proof.
  induction bs as [| b bs IH]; intros m Hc; [cbn; auto |].
  unfold blocks. cbn [map find]. fold (blocks bs).
  rewrite run_cons_emitted, run_cons_state. cbn [perform].
  rewrite process_emitted, process_state. unfold process_result.
  destruct (inbound_fields b m) as (H1 & H2 & H3 & H4 & H5).
  set (m0 := after_inbound b m) in *.
  rewrite (can_detect_none (buffer b) m0) by lia.
  unfold must_force_off. rewrite H2.
  destruct (Z.ltb_spec (triggerChannel m0) 0); [| lia]. cbn [orb].
  rewrite andb_true_r.
  destruct (enable_stream b); cbn [fst snd].
  - destruct (wasTriggered m) eqn:Hw; cbn [fst snd].
    + destruct (IH (set_wasTriggered false m0)) as (Ie & Il & Ip & Iw); [cbn; lia |].
      rewrite Ie, Il, Ip, Iw. cbn [wasTriggered set_wasTriggered lastSample currentPhase].
      rewrite H3, H4, H5.
      destruct (find enable_stream bs); auto.
    + destruct (IH m0) as (Ie & Il & Ip & Iw); [lia |].
      rewrite Ie, Il, Ip, Iw, H2, H4, H5.
      destruct (find enable_stream bs); auto.
  - destruct (IH m0) as (Ie & Il & Ip & Iw); [lia |].
    rewrite Ie, Il, Ip, Iw, H2, H3, H4, H5. auto.
Qed.

(** X6: once the channel selection is emptied, a run of blocks emits
    nothing but the forced TRIGGER_OFF of a held pulse, on the output line
    at the first sample of the first block of the enabled stream; no
    sample is examined ([lastSample] and [currentPhase] keep their
    values), whatever TTL events arrive. *)
Theorem X6_channel_deselected :
  forall (bs : list Block) (getGlobalIndex : Z -> Z) (m : PhaseDetectorSettings),
    let m' := parameterValueChanged (channel [] getGlobalIndex) m in
    emitted (run (blocks bs) m')
    = match find enable_stream bs with
      | Some b =>
          if wasTriggered m
          then [trigger_off (getFirstSampleNumberForBlock b) 0 (outputLine m)]
          else []
      | None => []
      end
    /\ lastSample (state_after (run (blocks bs) m')) = lastSample m
    /\ currentPhase (state_after (run (blocks bs) m')) = currentPhase m
    /\ wasTriggered (state_after (run (blocks bs) m'))
       = match find enable_stream bs with Some _ => false | None => wasTriggered m end.
Proof.
  intros bs g m m'.
  apply (deselected_run bs m'). cbn. lia.
Qed.

(** ** TTL events on the gate line *)

Lemma find_snoc {A} (f : A -> bool) l x :
  find f (l ++ [x]) = match find f l with
                      | Some y => Some y
                      | None => if f x then Some x else None
                      end.
Proof.
  induction l as [| a l IH]; cbn; [reflexivity |].
  destruct (f a); [reflexivity | exact IH].
Qed.

(** After the inbound events the gate has the state of the last event on
    the gate line, if there is one. *)
Lemma inbound_gate evs : forall m,
  0 <= gateLine m ->
  isActive (fold_left (fun m ev => handleTTLEvent ev m) evs m)
  = match find (on_gate_line m) (rev evs) with
    | Some ev => inState ev
    | None => isActive m
    end.
Proof.
  induction evs as [| ev evs IH]; intros m Hg; cbn [fold_left rev find]; [reflexivity |].
  assert (Hgl : gateLine (handleTTLEvent ev m) = gateLine m)
    by apply (handleTTLEvent_detector ev m).
  rewrite IH by (rewrite Hgl; exact Hg).
  rewrite find_snoc. unfold on_gate_line at 1 2. rewrite Hgl.
  fold (on_gate_line m).
  destruct (find (on_gate_line m) (rev evs)); [reflexivity |].
  unfold handleTTLEvent, on_gate_line. cbn [set_lastTTLWord gateLine].
  destruct (Z.gtb_spec (gateLine m) (-1)); [| lia].
  now destruct (gateLine m =? inLine ev).
Qed.

(** X7: the inbound TTL events of a block are applied before its first
    sample is examined.  When the last of them on the gate line closes
    the gate, the block of an enabled stream emits nothing but the forced
    TRIGGER_OFF of a held pulse at its first sample, and none of its
    samples is examined. *)
Theorem X7_gate_closed_by_event :
  forall (b : Block) (m : PhaseDetectorSettings) (ev : TTLIn),
    enable_stream b = true ->
    0 <= gateLine m ->
    find (on_gate_line m) (rev (inbound b)) = Some ev ->
    inState ev = false ->
    isActive (state_after (process b m)) = false
    /\ emitted (process b m)
       = (if wasTriggered m
          then [trigger_off (getFirstSampleNumberForBlock b) 0 (outputLine m)]
          else [])
    /\ lastSample (state_after (process b m)) = lastSample m
    /\ currentPhase (state_after (process b m)) = currentPhase m.
Proof.
  intros b m ev En Hg Hfind Hst.
  pose proof (inbound_gate (inbound b) m Hg) as Ha.
  rewrite Hfind, Hst in Ha. fold (after_inbound b m) in Ha.
  destruct (inbound_fields b m) as (H1 & H2 & H3 & H4 & H5).
  rewrite process_state, process_emitted. unfold process_result.
  set (m0 := after_inbound b m) in *.
  rewrite En, (can_detect_false (buffer b) m0) by auto.
  unfold must_force_off. rewrite Ha, H2. cbn [Bool.eqb]. rewrite orb_true_r, andb_true_r.
  destruct (wasTriggered m); cbn [fst snd set_wasTriggered isActive lastSample currentPhase];
    rewrite ?H3; auto.
Qed.

Lemma X7_gate_closed_by_event_witness :
  let m := set_wasTriggered true
             (parameterValueChanged (gate_line 2)
                (set_lastTTLWord 4 PhaseDetectorSettings_new)) in
  let b := mkBlock true [mkTTLIn 5 true 36; mkTTLIn 2 false 32; mkTTLIn 5 false 0]
             (buffer_of 1 scenario_samples) 100 6 in
  isActive m = true
  /\ emitted (process b m) = [trigger_off 100 0 0]
  /\ lastSample (state_after (process b m)) = fzero.
Proof.
  intros m b.
  destruct (X7_gate_closed_by_event b m (mkTTLIn 2 false 32) eq_refl
              ltac:(cbn; lia) eq_refl eq_refl) as (_ & He & Hl & _).
  exact (conj eq_refl (conj He Hl)).
Defined.

(** ** The landmark chain as a table *)

Lemma positive_not_negative s : fgt s fzero = true -> flt s fzero = false.
Proof. destruct s as [[|] | [|] | | [|] ms es]; cbn; congruence. Qed.

Lemma falling_not_rising_zero s p :
  flt s p = true -> fgt s fzero = true -> fle p fzero = true -> False.
Proof.
  destruct s as [[|] | [|] | | [|] ms es], p as [[|] | [|] | | [|] mp ep]; cbn;
    congruence.
Qed.

Lemma rising_not_falling_zero s p :
  fgt s p = true -> flt s fzero = true -> fge p fzero = true -> False.
Proof.
  destruct s as [[|] | [|] | | [|] ms es], p as [[|] | [|] | | [|] mp ep]; cbn;
    congruence.
Qed.

(** At most one branch condition holds for a pair of samples. *)
Lemma landmark_shape_exclusive d d' s p :
  landmark_shape d s p = true -> landmark_shape d' s p = true -> d = d'.
Proof.
  destruct d, d'; try reflexivity; cbn [landmark_shape];
    rewrite !andb_true_iff; intros [H1 H2] [H3 H4]; exfalso;
    try (apply positive_not_negative in H2; congruence);
    try (apply positive_not_negative in H3; congruence);
    try (apply positive_not_negative in H4; congruence);
    try (apply positive_not_negative in H1; congruence);
    eauto using falling_not_rising_zero, rising_not_falling_zero.
Qed.

Lemma landmark_table_shapes s p ph :
  landmark_table s p ph
  = if landmark_shape PEAK s p && negb (PhaseType_eqb ph FALLING_POS) then Some PEAK
    else if landmark_shape FALLING_ZERO s p && negb (PhaseType_eqb ph FALLING_NEG)
    then Some FALLING_ZERO
    else if landmark_shape TROUGH s p && negb (PhaseType_eqb ph RISING_NEG)
    then Some TROUGH
    else if landmark_shape RISING_ZERO s p && negb (PhaseType_eqb ph RISING_POS)
    then Some RISING_ZERO
    else None.
Proof. reflexivity. Qed.

Lemma landmark_table_iff s p ph d :
  landmark_table s p ph = Some d
  <-> landmark_shape d s p = true /\ ph <> phase_of d.
Proof.
  rewrite landmark_table_shapes.
  pose proof (landmark_shape_exclusive PEAK FALLING_ZERO s p) as E12.
  pose proof (landmark_shape_exclusive PEAK TROUGH s p) as E13.
  pose proof (landmark_shape_exclusive PEAK RISING_ZERO s p) as E14.
  pose proof (landmark_shape_exclusive FALLING_ZERO TROUGH s p) as E23.
  pose proof (landmark_shape_exclusive FALLING_ZERO RISING_ZERO s p) as E24.
  pose proof (landmark_shape_exclusive TROUGH RISING_ZERO s p) as E34.
  destruct d;
    destruct (landmark_shape PEAK s p), (landmark_shape FALLING_ZERO s p),
      (landmark_shape TROUGH s p), (landmark_shape RISING_ZERO s p);
    try (specialize (E12 eq_refl eq_refl); discriminate);
    try (specialize (E13 eq_refl eq_refl); discriminate);
    try (specialize (E14 eq_refl eq_refl); discriminate);
    try (specialize (E23 eq_refl eq_refl); discriminate);
    try (specialize (E24 eq_refl eq_refl); discriminate);
    try (specialize (E34 eq_refl eq_refl); discriminate);
    clear E12 E13 E14 E23 E24 E34;
    destruct ph; cbn; split;
    try (intros H; inversion H; fail);
    try (intros [H1 H2]; congruence);
    try (intros _; split; [reflexivity | discriminate]).
Qed.

(** X8: the four-way chain is a table whose order does not matter: at
    most one of the four sign-and-slope conditions holds for a sample and
    its predecessor, and the chain takes the branch of landmark [d]
    exactly when the condition of [d] holds and [currentPhase] is not the
    phase [d] stores.  In particular a condition blocked by the phase
    never lets a later branch fire in its place. *)
Theorem X8_landmark_table :
  forall (first i : Z) (s : float) (m : PhaseDetectorSettings) (d d' : DetectorType),
    (value_of (detect_landmark first i s m) = Some d
     <-> landmark_shape d s (lastSample m) = true /\ currentPhase m <> phase_of d)
    /\ (landmark_shape d s (lastSample m) = true ->
        landmark_shape d' s (lastSample m) = true -> d = d').
Proof.
  intros first i s m d d'. rewrite detect_landmark_value. unfold landmark_at.
  split; [apply landmark_table_iff | apply landmark_shape_exclusive].
Qed.

Lemma X8_landmark_table_witness :
  let m := set_currentPhase FALLING_POS (set_lastSample f_0_5 PhaseDetectorSettings_new) in
  landmark_shape PEAK f_0_3 (lastSample m) = true
  /\ value_of (detect_landmark 0 0 f_0_3 m) = None
  /\ (value_of (detect_landmark 0 0 f_0_3 (set_currentPhase RISING_POS m)) = Some PEAK).
Proof.
  intros m.
  destruct (X8_landmark_table 0 0 f_0_3 (set_currentPhase RISING_POS m) PEAK PEAK)
    as [[_ H] _].
  split; [reflexivity |]. split; [reflexivity |].
  apply H. split; [reflexivity | discriminate].
Defined.

(** ** NaN samples and flat runs *)

Lemma landmark_table_nan_sample p ph : landmark_table fnan p ph = None.
Proof. unfold landmark_table. destruct p as [[|] | [|] | | [|] mp ep]; reflexivity. Qed.

Lemma landmark_table_nan_last s ph : landmark_table s fnan ph = None.
Proof.
  unfold landmark_table.
  destruct s as [[|] | [|] | | [|] ms es]; reflexivity.
Qed.

Lemma no_landmark_step first i s m :
  landmark_at s m = None ->
  currentPhase (state_after (process_sample first i s m)) = currentPhase m
  /\ lastSample (state_after (process_sample first i s m)) = s
  /\ filter (is_kind TRIGGER_ON) (emitted (process_sample first i s m)) = [].
Proof.
  intros H. rewrite process_sample_eq. unfold state_after, emitted. cbn [fst snd].
  rewrite step_state_phase, step_events_ons. unfold target_hit. rewrite H.
  repeat split.
Qed.

(** X9: a NaN sample matches no landmark, and neither does the sample
    after it, whatever its value: every branch condition compares with
    the previous sample.  Over the two samples [currentPhase] keeps its
    value and no TRIGGER_ON is emitted. *)
Theorem X9_nan_sample :
  forall (first i : Z) (m : PhaseDetectorSettings) (next : float),
    let m1 := state_after (process_sample first i fnan m) in
    let m2 := state_after (process_sample first (i + 1) next m1) in
    value_of (detect_landmark first i fnan m) = None
    /\ value_of (detect_landmark first (i + 1) next m1) = None
    /\ currentPhase m2 = currentPhase m
    /\ filter (is_kind TRIGGER_ON) (emitted (process_sample first i fnan m)) = []
    /\ filter (is_kind TRIGGER_ON) (emitted (process_sample first (i + 1) next m1)) = [].
Proof.
  intros first i m next m1 m2.
  assert (H1 : landmark_at fnan m = None) by apply landmark_table_nan_sample.
  destruct (no_landmark_step first i fnan m H1) as (Hp1 & Hl1 & He1). fold m1 in Hp1, Hl1.
  assert (H2 : landmark_at next m1 = None).
  { unfold landmark_at. rewrite Hl1. apply landmark_table_nan_last. }
  destruct (no_landmark_step first (i + 1) next m1 H2) as (Hp2 & _ & He2). fold m2 in Hp2.
  rewrite !detect_landmark_value.
  repeat split; try assumption. congruence.
Qed.

Lemma SFcompare_Eq_sym a b : SFcompare a b = Some Eq -> SFcompare b a = Some Eq.
Proof.
  destruct a as [[|] | [|] | | [|] ma ea], b as [[|] | [|] | | [|] mb eb]; cbn;
    try congruence.
  - destruct (Z.compare_spec ea eb) as [-> | |]; try discriminate.
    intros H. assert (Hm : CompOpp (Pos.compare ma mb) = Eq)
      by (unfold Pos.compare; congruence).
    destruct (Pos.compare_spec ma mb) as [-> | |]; try discriminate.
    rewrite Z.compare_refl. fold (Pos.compare mb mb). now rewrite Pos.compare_refl.
  - destruct (Z.compare_spec ea eb) as [-> | |]; try discriminate.
    intros H. assert (Hm : Pos.compare ma mb = Eq) by (unfold Pos.compare; congruence).
    destruct (Pos.compare_spec ma mb) as [-> | |]; try discriminate.
    rewrite Z.compare_refl. fold (Pos.compare mb mb). now rewrite Pos.compare_refl.
Qed.

Lemma landmark_shape_flat d s p : feq s p = true -> landmark_shape d s p = false.
Proof.
  unfold feq, SFeqb. intros H.
  destruct (SFcompare s p) as [[| |] |] eqn:E; try discriminate. clear H.
  pose proof (SFcompare_Eq_sym s p E) as E'.
  assert (H1 : flt s p = false) by (unfold flt, SFltb; now rewrite E).
  assert (H2 : fgt s p = false) by (unfold fgt, SFltb; now rewrite E').
  destruct d; cbn [landmark_shape]; rewrite ?H1, ?H2; try reflexivity;
    clear H1 H2 E';
    destruct s as [[|] | [|] | | [|] ms es], p as [[|] | [|] | | [|] mp ep];
    cbn in E |- *; congruence.
Qed.

(** X10: a sample equal to the previous one matches no landmark (zero
    crossings included: the two zeros are equal): the phase is kept and
    no TRIGGER_ON is emitted, so a flat run never fires. *)
Theorem X10_flat_sample :
  forall (first i : Z) (s : float) (m : PhaseDetectorSettings),
    feq s (lastSample m) = true ->
    value_of (detect_landmark first i s m) = None
    /\ currentPhase (state_after (process_sample first i s m)) = currentPhase m
    /\ lastSample (state_after (process_sample first i s m)) = s
    /\ filter (is_kind TRIGGER_ON) (emitted (process_sample first i s m)) = [].
Proof.
  intros first i s m Hflat.
  assert (H : landmark_at s m = None).
  { destruct (landmark_at s m) as [d |] eqn:E; [| reflexivity].
    apply landmark_table_iff in E. destruct E as [E _].
    rewrite (landmark_shape_flat d s (lastSample m) Hflat) in E. discriminate. }
  rewrite detect_landmark_value. split; [exact H |].
  now apply no_landmark_step.
Qed.

Lemma X10_flat_sample_witness :
  let m := set_currentPhase FALLING_NEG
             (set_lastSample (S754_zero true) PhaseDetectorSettings_new) in
  feq fzero (lastSample m) = true
  /\ value_of (detect_landmark 0 0 fzero m) = None
  /\ currentPhase (state_after (process_sample 0 0 fzero m)) = FALLING_NEG.
Proof.
  intros m.
  destruct (X10_flat_sample 0 0 fzero m eq_refl) as (H1 & H2 & _).
  exact (conj eq_refl (conj H1 H2)).
Defined.

(** ** The phase memory does not depend on the target *)

Lemma step_phase_memory s m m' :
  same_phase_memory m m' ->
  landmark_at s m' = landmark_at s m
  /\ same_phase_memory (step_state s m) (step_state s m').
Proof.
  intros (Hl & Hp & Hc). unfold landmark_at, same_phase_memory.
  rewrite Hl, Hp. split; [reflexivity |].
  cbn [step_state lastSample currentPhase triggerChannel].
  unfold landmark_at. rewrite Hl, Hp, Hc. auto.
Qed.

Lemma feed_phase_memory first first' l : forall i i' m m',
  same_phase_memory m m' ->
  landmarks_of l m' = landmarks_of l m
  /\ same_phase_memory (fst (feed first i l m)) (fst (feed first' i' l m')).
Proof.
  induction l as [| s l IH]; intros i i' m m' H; cbn [feed fst landmarks_of]; [auto |].
  destruct (step_phase_memory s m m' H) as [Ha Hs].
  destruct (IH (i + 1) (i' + 1) _ _ Hs) as [IHl IHs].
  rewrite Ha, IHl. auto.
Qed.

(** X11: which landmarks the sample loop detects, and the previous sample
    and phase it ends with, depend only on the samples read and on the
    previous sample and phase it starts with: not on the target landmark,
    the pulse state, the output line or the gate.  Changing the target
    changes which detections emit, never what is detected. *)
Theorem X11_detection_ignores_target :
  forall (buf : AudioBuffer) (first first' : Z) (count start : nat)
         (m m' : PhaseDetectorSettings),
    same_phase_memory m m' ->
    landmark_trace buf first' count start m' = landmark_trace buf first count start m
    /\ same_phase_memory (state_after (sample_loop buf first count start m))
         (state_after (sample_loop buf first' count start m')).
Proof.
  intros buf first first' count start m m' H.
  rewrite !landmark_trace_eq, !sample_loop_eq. unfold state_after. cbn [fst snd].
  assert (Hc : triggerChannel m' = triggerChannel m) by apply H.
  rewrite Hc. now apply feed_phase_memory.
Qed.

Lemma X11_detection_ignores_target_witness :
  let buf := buffer_of 1 scenario_samples in
  let m := scenario_settings 0 0 (-1) 0 false 0 in
  let m' := parameterValueChanged (ttl_out 9) (parameterValueChanged (phase PEAK) m) in
  same_phase_memory m m'
  /\ landmark_trace buf 0 6 0 m' = [RISING_ZERO; PEAK; FALLING_ZERO; TROUGH; RISING_ZERO]
  /\ landmark_trace buf 0 6 0 m' = landmark_trace buf 0 6 0 m.
Proof.
  intros buf m m'.
  assert (H : same_phase_memory m m') by (repeat split).
  destruct (X11_detection_ignores_target buf 0 0 6 0 m m' H) as [Ht _].
  exact (conj H (conj eq_refl Ht)).
Defined.

(** ** The lines of the on-events *)

Lemma feed_on_lines first l i m e :
  In e (snd (feed first i l m)) -> kind e = TRIGGER_ON ->
  getLine (event e) = outputLine m.
Proof.
  intros He Hk. apply feed_events_inv in He.
  destruct He as [_ [E | [E | E]]]; rewrite E in Hk |- *; cbn in Hk |- *;
    congruence.
Qed.

Lemma process_on_lines b m e :
  In e (emitted (process b m)) -> kind e = TRIGGER_ON ->
  0 <= getLine (event e)
  /\ 0 <= triggerChannel m < getNumChannels (buffer b)
  /\ isActive (state_after (process b m)) = true.
Proof.
  rewrite process_emitted, process_state. unfold process_result.
  destruct (enable_stream b); [| intros []].
  destruct (can_detect (buffer b) (after_inbound b m)) eqn:Hg.
  - intros He Hk. rewrite (feed_on_lines _ _ _ _ _ He Hk).
    destruct (can_detect_true _ _ Hg) as (Ha & Ho & Hc).
    destruct (inbound_fields b m) as (H1 & _).
    pose proof (feed_config (getFirstSampleNumberForBlock b)
                  (samples_of b (after_inbound b m)) 0 (after_inbound b m)) as (Ha' & _).
    rewrite Ha', <- H1. auto.
  - destruct (must_force_off (after_inbound b m)); cbn [snd]; [| intros []].
    intros [<- | []] Hk. discriminate Hk.
Qed.

(** X12: over any run of reconfigurations and blocks, a TRIGGER_ON is
    only ever emitted on a non-negative line: a negative output line
    silences the detector rather than reaching the event. *)
Theorem X12_on_lines_valid :
  forall (acts : list Action) (m : PhaseDetectorSettings) (e : Emitted),
    In e (emitted (run acts m)) -> kind e = TRIGGER_ON -> 0 <= getLine (event e).
Proof.
  induction acts as [| a acts IH]; intros m e He Hk; [destruct He |].
  rewrite run_cons_emitted in He. apply in_app_or in He. destruct He as [He | He].
  - destruct a as [param | b]; [destruct He |].
    now apply (process_on_lines b m e).
  - exact (IH _ e He Hk).
Qed.

Lemma X12_on_lines_valid_witness :
  let acts := [Reconfigure (phase TROUGH); Reconfigure (ttl_out 3);
               ProcessBlock (block_of 1 0 scenario_samples)] in
  In (trigger_on 0 4 3) (emitted (run acts PhaseDetectorSettings_new))
  /\ 0 <= getLine (event (trigger_on 0 4 3)).
Proof.
  intros acts.
  assert (H : In (trigger_on 0 4 3) (emitted (run acts PhaseDetectorSettings_new)))
    by (vm_compute; right; left; reflexivity).
  exact (conj H (X12_on_lines_valid acts PhaseDetectorSettings_new _ H eq_refl)).
Defined.

(** ** Block boundaries *)

(** X13: how the host cuts the samples into blocks does not matter while
    the detector stays active: two runs of contiguous blocks that start at
    the same sample and state and read the same samples emit the same TTL
    events (sample number, line, state), and end in the same detector
    state up to the gate. *)
Theorem X13_block_boundaries :
  forall (bs bs' : list Block) (F : Z) (m : PhaseDetectorSettings),
    contiguous F bs -> contiguous F bs' ->
    stays_detecting bs m -> stays_detecting bs' m ->
    run_samples bs m = run_samples bs' m ->
    map event (emitted (run (blocks bs) m)) = map event (emitted (run (blocks bs') m))
    /\ same_detector (state_after (run (blocks bs) m))
         (state_after (run (blocks bs') m)).
Proof.
  intros bs bs' F m Hc Hc' Hs Hs' Heq.
  destruct (run_flatten bs F m m (same_detector_refl m) Hc Hs) as [He Hst].
  destruct (run_flatten bs' F m m (same_detector_refl m) Hc' Hs') as [He' Hst'].
  rewrite He, He', Heq. split; [reflexivity |].
  rewrite Heq in Hst.
  eapply same_detector_trans; [apply same_detector_sym; exact Hst | exact Hst'].
Qed.

Lemma X13_block_boundaries_witness :
  let m := scenario_settings 0 0 (-1) 0 true 0 in
  let whole := [block_of 1 0 scenario_samples] in
  let cut := [block_of 1 0 [f_0_5; f_0_3; f_m0_1; f_m0_4; f_m0_2];
              block_of 1 5 [f_0_1]] in
  contiguous 0 whole /\ contiguous 0 cut
  /\ stays_detecting whole m /\ stays_detecting cut m
  /\ run_samples whole m = run_samples cut m
  /\ map event (emitted (run (blocks cut) m)) = [ttl_clear 0 0; ttl_on 4 3]
  /\ map event (emitted (run (blocks whole) m)) = map event (emitted (run (blocks cut) m)).
Proof.
  intros m whole cut.
  assert (Hc : contiguous 0 whole) by (repeat split).
  assert (Hc' : contiguous 0 cut) by (repeat split).
  assert (Hs : stays_detecting whole m) by (repeat split).
  assert (Hs' : stays_detecting cut m) by (repeat split).
  assert (Heq : run_samples whole m = run_samples cut m) by reflexivity.
  destruct (X13_block_boundaries whole cut 0 m Hc Hc' Hs Hs' Heq) as [He _].
  exact (conj Hc (conj Hc' (conj Hs (conj Hs' (conj Heq (conj eq_refl He)))))).
Defined.

(** ** Streams do not interfere *)

Lemma handle_all_lookup evs : forall st id,
  fold_left (fun st ev => handleTTLEvent_of ev st) evs st id
  = fold_left (fun m ev => handleTTLEvent ev m) (events_of id evs) (st id).
Proof.
  induction evs as [| ev evs IH]; intros st id; [reflexivity |].
  cbn [fold_left]. rewrite IH. unfold events_of. cbn [filter].
  unfold handleTTLEvent_of, set_settings.
  rewrite (Z.eqb_sym (eventStreamId ev) id).
  destruct (Z.eqb_spec id (eventStreamId ev)) as [-> | Hne]; reflexivity.
Qed.

Lemma emitted_of_app id l1 l2 :
  emitted_of id (l1 ++ l2) = emitted_of id l1 ++ emitted_of id l2.
Proof. unfold emitted_of. now rewrite filter_app, map_app. Qed.

Lemma emitted_of_tagged id id' l :
  emitted_of id (map (pair id') l) = if id' =? id then l else [].
Proof.
  unfold emitted_of. induction l as [| e l IH]; cbn [map filter fst].
  - now destruct (id' =? id).
  - destruct (id' =? id) eqn:E; cbn [map snd]; [now rewrite IH | exact IH].
Qed.

Lemma process_streams_other buf streams : forall st id,
  ~ In id (map getStreamId streams) ->
  fst (process_streams buf streams st) id = st id
  /\ emitted_of id (snd (process_streams buf streams st)) = [].
Proof.
  induction streams as [| s streams IH]; intros st id Hn; [cbn; auto |].
  cbn [process_streams fst snd]. cbn [map In] in Hn.
  destruct (IH (fst (process_stream buf s st)) id) as [IHs IHe]; [tauto |].
  rewrite IHs, emitted_of_app, IHe.
  unfold process_stream. cbn [fst snd]. rewrite emitted_of_tagged.
  unfold set_settings.
  destruct (Z.eqb_spec id (getStreamId s)) as [E | _]; [exfalso; apply Hn; auto |].
  destruct (Z.eqb_spec (getStreamId s) id) as [E | _]; [exfalso; apply Hn; auto |].
  auto.
Qed.

Lemma process_streams_at buf streams : forall st s,
  NoDup (map getStreamId streams) -> In s streams ->
  let r := when (streamEnabled s)
             (guarded_loop (stream_block buf s []) ;; end_of_block (stream_block buf s []))
             (st (getStreamId s)) in
  fst (process_streams buf streams st) (getStreamId s) = state_after r
  /\ emitted_of (getStreamId s) (snd (process_streams buf streams st)) = emitted r.
Proof.
  induction streams as [| s0 streams IH]; intros st s Hnd Hin; [destruct Hin |].
  cbn [map] in Hnd. inversion Hnd as [| ? ? Hnot Hnd']; subst.
  cbn [process_streams fst snd]. rewrite emitted_of_app.
  destruct Hin as [-> | Hin].
  - destruct (process_streams_other buf streams (fst (process_stream buf s st))
                (getStreamId s) Hnot) as [Hs He].
    rewrite Hs, He, app_nil_r. unfold process_stream. cbn [fst snd].
    rewrite emitted_of_tagged. unfold set_settings. rewrite Z.eqb_refl. auto.
  - assert (Hne : getStreamId s0 <> getStreamId s).
    { intros E. apply Hnot. rewrite E. now apply in_map. }
    destruct (IH (fst (process_stream buf s0 st)) s Hnd' Hin) as [IHs IHe].
    cbn zeta in IHs, IHe. rewrite IHs, IHe.
    unfold process_stream. cbn [fst snd]. rewrite emitted_of_tagged.
    unfold set_settings.
    destruct (Z.eqb_spec (getStreamId s) (getStreamId s0)); [congruence |].
    destruct (Z.eqb_spec (getStreamId s0) (getStreamId s)); [congruence |].
    auto.
Qed.

Lemma process_split b m :
  process b m
  = (tt,
     state_after (when (enable_stream b) (guarded_loop b ;; end_of_block b)
                    (after_inbound b m)),
     emitted (when (enable_stream b) (guarded_loop b ;; end_of_block b)
                (after_inbound b m))).
Proof.
  unfold process, checkForEvents. unfold bind at 1, modify at 1.
  fold (after_inbound b m).
  destruct (when (enable_stream b) (guarded_loop b ;; end_of_block b) (after_inbound b m))
    as [[[] m1] e1].
  reflexivity.
Qed.

(** X14: streams do not interfere.  When the processor handles the
    inbound TTL events of all streams and then processes its streams in
    turn, what happens to a stream (its settings afterwards and the events
    emitted for it) is what [process] does on that stream alone with the
    TTL events of that stream; the settings of an id that is not among
    the streams only see the TTL events addressed to it. *)
Theorem X14_streams_independent :
  forall (evs : list StreamTTL) (buf : AudioBuffer) (streams : list DataStream)
         (st : AllSettings) (s : DataStream),
    NoDup (map getStreamId streams) ->
    In s streams ->
    let id := getStreamId s in
    let b := stream_block buf s (events_of id evs) in
    let r := process_all evs buf streams st in
    fst r id = state_after (process b (st id))
    /\ emitted_of id (snd r) = emitted (process b (st id))
    /\ (forall other, ~ In other (map getStreamId streams) ->
          fst r other
          = fold_left (fun m ev => handleTTLEvent ev m) (events_of other evs) (st other)
          /\ emitted_of other (snd r) = []).
Proof.
  intros evs buf streams st s Hnd Hin id b r. subst r. unfold process_all.
  set (st0 := fold_left (fun st ev => handleTTLEvent_of ev st) evs st).
  destruct (process_streams_at buf streams st0 s Hnd Hin) as [Hs He].
  cbn zeta in Hs, He. rewrite process_split.
  unfold state_after at 2, emitted at 2. cbn [fst snd].
  assert (H0 : st0 id = after_inbound b (st id)).
  { unfold st0. rewrite handle_all_lookup. reflexivity. }
  fold id in Hs, He. rewrite H0 in Hs, He.
  split; [exact Hs |]. split; [exact He |].
  intros other Hother.
  destruct (process_streams_other buf streams st0 other Hother) as [Ho1 Ho2].
  rewrite Ho1, Ho2. unfold st0. rewrite handle_all_lookup. auto.
Qed.

Lemma two_streams_nodup : NoDup (map getStreamId two_streams).
Proof. repeat constructor; cbn; intuition discriminate. Qed.

Lemma two_streams_scenario :
  emitted (process (stream_block (buffer_of 1 scenario_samples)
                      (mkDataStream 10 true 0 6)
                      (events_of 10 [mkStreamTTL 20 (mkTTLIn 2 true 4)]))
             (two_settings 10))
  = [trigger_on 0 4 3].
Proof. vm_compute. reflexivity. Qed.

Lemma X14_streams_independent_witness :
  let evs := [mkStreamTTL 20 (mkTTLIn 2 true 4)] in
  let r := process_all evs (buffer_of 1 scenario_samples) two_streams two_settings in
  NoDup (map getStreamId two_streams)
  /\ In (mkDataStream 10 true 0 6) two_streams
  /\ emitted_of 10 (snd r) = [trigger_on 0 4 3].
Proof.
  intros evs r.
  assert (Hin : In (mkDataStream 10 true 0 6) two_streams) by (left; reflexivity).
  destruct (X14_streams_independent evs (buffer_of 1 scenario_samples) two_streams
              two_settings (mkDataStream 10 true 0 6) two_streams_nodup Hin)
    as (_ & He & _).
  exact (conj two_streams_nodup (conj Hin (eq_trans He two_streams_scenario))).
Defined.

(** ** The lines of the events *)

Lemma process_lines b m e :
  In e (emitted (process b m)) ->
  match kind e with
  | LINE_CLEAR => getLine (event e) = lastOutputLine m
  | _ => getLine (event e) = outputLine m
  end.
Proof.
  rewrite process_emitted. unfold process_result.
  pose proof (after_inbound_detector b m) as (_ & _ & _ & _ & _ & _ & Ho & _ & Hl & _).
  set (m0 := after_inbound b m) in *.
  destruct (enable_stream b); [| intros []].
  destruct (can_detect (buffer b) m0).
  - intros He. apply feed_events_inv in He.
    destruct He as [_ [E | [E | E]]]; rewrite E; cbn; congruence.
  - destruct (must_force_off m0); cbn [snd]; [| intros []].
    intros [<- | []]. cbn. exact Ho.
Qed.

Lemma process_keeps_lines b m :
  outputLine (state_after (process b m)) = outputLine m
  /\ lastOutputLine (state_after (process b m)) = lastOutputLine m.
Proof.
  destruct (process_gate_fields b m) as (_ & _ & _ & Ho & _ & Hl & _).
  pose proof (after_inbound_detector b m) as (_ & _ & _ & _ & _ & _ & Ho' & _ & Hl' & _).
  split; congruence.
Qed.

Lemma run_blocks_lines bs : forall m e,
  In e (emitted (run (blocks bs) m)) ->
  match kind e with
  | LINE_CLEAR => getLine (event e) = lastOutputLine m
  | _ => getLine (event e) = outputLine m
  end.
Proof.
  induction bs as [| b bs IH]; intros m e He; [destruct He |].
  unfold blocks in He. cbn [map] in He. fold (blocks bs) in He.
  rewrite run_cons_emitted in He. cbn [perform] in He.
  apply in_app_or in He. destruct He as [He | He].
  - now apply (process_lines b m).
  - apply IH in He. destruct (process_keeps_lines b m) as [Ho Hl].
    rewrite Ho, Hl in He. exact He.
Qed.

(** X15: an event takes its line when it is emitted.  After the output
    line is changed to [v], every TRIGGER_ON and TRIGGER_OFF of the blocks
    that follow is on line [v]: a pulse raised on the old line before the
    change is timed out, or forced off, on the new line, and the old line
    is only ever addressed by the LINE_CLEAR. *)
Theorem X15_lines_after_change :
  forall (bs : list Block) (m : PhaseDetectorSettings) (v : Z) (e : Emitted),
    In e (emitted (run (blocks bs) (parameterValueChanged (ttl_out v) m))) ->
    match kind e with
    | LINE_CLEAR => getLine (event e) = outputLine m
    | _ => getLine (event e) = v
    end.
Proof.
  intros bs m v e He. apply run_blocks_lines in He. exact He.
Qed.

Lemma held_pulse_run_events :
  emitted (run (blocks [block_of 1 0 (repeat f_0_1 2010)])
             (parameterValueChanged (ttl_out 7)
                (set_wasTriggered true
                   (set_lastSample f_0_1 (scenario_settings 0 1990 (-1) 0 false 0)))))
  = [line_clear 0 0 3; trigger_off 0 11 7].
Proof. vm_compute. reflexivity. Qed.

Lemma X15_lines_after_change_witness :
  let m := set_wasTriggered true
             (set_lastSample f_0_1 (scenario_settings 0 1990 (-1) 0 false 0)) in
  let evs := emitted (run (blocks [block_of 1 0 (repeat f_0_1 2010)])
                        (parameterValueChanged (ttl_out 7) m)) in
  outputLine m = 3
  /\ In (trigger_off 0 11 7) evs
  /\ getLine (event (trigger_off 0 11 7)) = 7.
Proof.
  intros m evs.
  assert (Hin : In (trigger_off 0 11 7) evs).
  { unfold evs, m. rewrite held_pulse_run_events. right. left. reflexivity. }
  exact (conj eq_refl (conj Hin
           (X15_lines_after_change _ m 7 (trigger_off 0 11 7) Hin))).
Defined.
